(** * VoiceTech for All: the TTS API server (app.py)

    A shallow embedding of the request handlers of [app.py] and of the text
    normalizer they call, with the properties of the synthesis pipeline.

    Python strings are sequences of Unicode code points; integers are
    unbounded.  Tensors are followed through the network by their shape (and,
    for index tensors, their entries): the floating-point entries never reach
    a response. *)

From Stdlib Require Import ZArith NArith List String Ascii Lia.
From Stdlib Require QArith DecimalString.
From stdpp Require Import base option list gmap.

Local Open Scope N_scope.

(** ** Python strings *)

(** A [str] is a list of code points. *)
Definition pystr := list N.

(** An ASCII literal, character by character. *)
Fixpoint str (s : string) : pystr :=
  match s with
  | EmptyString => []
  | String a s' => N_of_ascii a :: str s'
  end.

Definition space : N := 32.

(** [sep.join(words)] *)
Fixpoint join (sep : pystr) (words : list pystr) : pystr :=
  match words with
  | [] => []
  | [w] => w
  | w :: ws => w ++ sep ++ join sep ws
  end.

(** The character tables of Python for the ASCII range.  [str.isspace] holds
    of TAB..CR, FS..US and the space; [str.isalnum] of the digits and the
    letters; [str.lower] moves A..Z to a..z. *)
Definition is_ascii (c : N) : bool := c <? 128.

Definition ascii_isspace (c : N) : bool :=
  ((9 <=? c) && (c <=? 13)) || ((28 <=? c) && (c <=? 32)).

Definition ascii_isalnum (c : N) : bool :=
  ((48 <=? c) && (c <=? 57)) || ((65 <=? c) && (c <=? 90))
  || ((97 <=? c) && (c <=? 122)).

Definition ascii_lower (c : N) : N :=
  if (65 <=? c) && (c <=? 90) then c + 32 else c.

(** Beyond ASCII the tables are those of the Unicode database the interpreter
    ships: a parameter of the development. *)
Record UnicodeDB := {
  uni_isspace : N -> bool;
  uni_isalnum : N -> bool;
  uni_lower : pystr -> pystr
}.

Section Str.
Variable db : UnicodeDB.

(** [c.isspace()] for a one-character string *)
Definition isspace (c : N) : bool :=
  if is_ascii c then ascii_isspace c else uni_isspace db c.

(** [c.isalnum()] for a one-character string *)
Definition isalnum (c : N) : bool :=
  if is_ascii c then ascii_isalnum c else uni_isalnum db c.

(** [s.lower()] *)
Definition lower (s : pystr) : pystr :=
  if forallb is_ascii s then map ascii_lower s else uni_lower db s.

(** [s.split()]: the maximal runs of characters that are not whitespace. *)
Fixpoint split (s : pystr) : list pystr :=
  match s with
  | [] => []
  | c :: rest =>
      if isspace c then split rest
      else match rest with
           | [] => [[c]]
           | d :: _ =>
               if isspace d then [c] :: split rest
               else match split rest with
                    | w :: ws => (c :: w) :: ws
                    | [] => [[c]]
                    end
           end
  end.

(** ** IndianLanguageNormalizer *)

Definition LANGUAGES : list (pystr * pystr) :=
  [ (str "hi", str "Hindi"); (str "bn", str "Bengali");
    (str "mr", str "Marathi"); (str "kn", str "Kannada");
    (str "te", str "Telugu"); (str "bh", str "Bhojpuri");
    (str "cc", str "Chhattisgarhi"); (str "mg", str "Magahi");
    (str "mt", str "Maithili"); (str "ta", str "Tamil");
    (str "ml", str "Malayalam") ].

(** [c in ' .,!?;:'] *)
Definition in_punct (c : N) : bool :=
  existsb (N.eqb c) (str " .,!?;:").

Definition normalize (text : pystr) (language : pystr) : pystr :=
  let text := join [space] (split text) in
  let text := List.filter (fun c => isalnum c || in_punct c) text in
  lower text.

(** *** The normalizer in the words of the specification

    Three passes: every maximal run of whitespace becomes one space, the
    characters that are neither alphanumeric nor in the punctuation set go
    (the spaces of the first pass stay), and the rest is lower-cased. *)

Fixpoint collapse_whitespace (s : pystr) : pystr :=
  match s with
  | [] => []
  | c :: rest =>
      if isspace c then
        match rest with
        | d :: _ =>
            if isspace d then collapse_whitespace rest
            else space :: collapse_whitespace rest
        | [] => [space]
        end
      else c :: collapse_whitespace rest
  end.

(** The punctuation set: . , ! ? ; : *)
Definition punctuation : pystr := [46; 44; 33; 63; 59; 58].

Definition kept (c : N) : bool :=
  isalnum c || (c =? space) || existsb (N.eqb c) punctuation.

Definition normalize_spec (text : pystr) : pystr :=
  lower (List.filter kept (collapse_whitespace text)).

(** Whitespace taken off the front, off the back, off both. *)
Fixpoint lstrip (s : pystr) : pystr :=
  match s with
  | [] => []
  | c :: rest => if isspace c then lstrip rest else s
  end.

Fixpoint rstrip (s : pystr) : pystr :=
  match s with
  | [] => []
  | c :: rest =>
      match rstrip rest with
      | [] => if isspace c then [] else [c]
      | r => c :: r
      end
  end.

Definition strip (s : pystr) : pystr := rstrip (lstrip s).



(** ASCII text of letters, digits, whitespace and the punctuation set:
    nothing in it that the normalizer strips. *)
Definition plain (s : pystr) : Prop :=
  Forall (fun c => is_ascii c
                   && (ascii_isspace c || ascii_isalnum c
                       || existsb (N.eqb c) punctuation) = true) s.

(** A word: not empty, no whitespace in it. *)
Definition word (w : pystr) : Prop :=
  w <> [] /\ Forall (fun c => isspace c = false) w.

(** An ASCII character that the normalizer keeps. *)
Definition clean (c : N) : Prop :=
  is_ascii c = true /\ isalnum c || in_punct c = true.

End Str.

(** The tables cut down to ASCII: nothing beyond it is whitespace or
    alphanumeric, and lower-casing leaves such strings alone.  It agrees with
    Python on every ASCII string. *)
Definition ascii_db : UnicodeDB :=
  {| uni_isspace := fun _ => false;
     uni_isalnum := fun _ => false;
     uni_lower := fun s => s |}.



(** ** Exceptions *)

(** What a [RuntimeError] of the tensor library, or of the audio writer,
    reports. *)
Inductive runtime_error :=
| SizeMismatch (a b : N)        (* operands that do not broadcast *)
| InputSize (expected got : N)  (* LSTM fed the wrong feature size *)
| MatMul (expected got : N)     (* Linear fed the wrong feature size *)
| ExpandSize (expanded existing : N)
| CatSize
| BadRank
| EmptySequence                 (* LSTM fed a sequence of length 0 *)
| CannotOpen.

Inductive exn :=
| HTTPException (status_code : Z) (detail : pystr)
| RuntimeError (why : runtime_error)
| IndexError
| ValueError
| TypeError
| OSError.

Inductive result (A : Type) :=
| Ok (a : A)
| Raise (e : exn).
Arguments Ok {A} a.
Arguments Raise {A} e.

#[global] Instance result_ret : MRet result := fun A a => Ok a.
#[global] Instance result_bind : MBind result := fun A B k r =>
  match r with
  | Ok a => k a
  | Raise e => Raise e
  end.
#[global] Instance result_fmap : FMap result := fun A B f r =>
  match r with
  | Ok a => Ok (f a)
  | Raise e => Raise e
  end.

(** ** Tensors, by shape *)

Definition shape := list N.

(** An index tensor ([dtype=torch.long]) keeps its entries. *)
Record LongTensor := { lshape : shape; ldata : list Z }.

(** [x.unsqueeze(dim)] *)
Definition unsqueeze (dim : nat) (x : shape) : result shape :=
  if bool_decide (dim <= length x)%nat
  then Ok (take dim x ++ [1] ++ drop dim x)
  else Raise IndexError.

(** [x.expand(sizes...)], [None] standing for [-1]. *)
Fixpoint expand (sizes : list (option N)) (x : shape) : result shape :=
  match sizes, x with
  | [], [] => Ok []
  | None :: sizes', d :: x' => cons d <$> expand sizes' x'
  | Some n :: sizes', d :: x' =>
      if (d =? n) || (d =? 1) then cons n <$> expand sizes' x'
      else Raise (RuntimeError (ExpandSize n d))
  | _, _ => Raise (RuntimeError BadRank)
  end.

(** The broadcast of two shapes, both read from the trailing dimension. *)
Fixpoint broadcast_rev (a b : list N) : result (list N) :=
  match a, b with
  | [], _ => Ok b
  | _, [] => Ok a
  | x :: a', y :: b' =>
      if x =? y then cons x <$> broadcast_rev a' b'
      else if x =? 1 then cons y <$> broadcast_rev a' b'
      else if y =? 1 then cons x <$> broadcast_rev a' b'
      else Raise (RuntimeError (SizeMismatch x y))
  end.

(** [a + b] *)
Definition add (a b : shape) : result shape :=
  reverse <$> broadcast_rev (reverse a) (reverse b).

(** [torch.cat([a, b, c], dim=-1)] *)
Definition cat_last (ts : list shape) : result shape :=
  match ts with
  | [] => Raise (RuntimeError BadRank)
  | t :: _ =>
      if forallb (fun u => bool_decide (removelast u = removelast t)
                           && negb (bool_decide (u = []))) ts
      then Ok (removelast t ++ [fold_right N.add 0 (map (fun u => List.last u 0) ts)])
      else Raise (RuntimeError CatSize)
  end.

(** *** The layers of torch.nn *)

Module Embedding.
Record t := { num_embeddings : N; embedding_dim : N }.

Definition forward (m : t) (x : LongTensor) : result shape :=
  if forallb (fun i => (0 <=? i)%Z && (i <? Z.of_N (num_embeddings m))%Z) (ldata x)
  then Ok (lshape x ++ [embedding_dim m])
  else Raise IndexError.
End Embedding.

Module LSTM.
Record t := {
  input_size : N; hidden_size : N; num_layers : N;
  batch_first : bool; bidirectional : bool
}.

(** [nn.LSTM(input_size, hidden_size, num_layers=..., ...)]: the constructor
    refuses a hidden state or a stack of no size. *)
Definition init (input_size hidden_size num_layers : N)
    (batch_first bidirectional : bool) : result t :=
  if hidden_size =? 0 then Raise ValueError
  else if num_layers =? 0 then Raise ValueError
  else Ok {| input_size := input_size; hidden_size := hidden_size;
             num_layers := num_layers; batch_first := batch_first;
             bidirectional := bidirectional |}.

Definition out_features (m : t) : N :=
  (if bidirectional m then 2 else 1) * hidden_size m.

(** The output sequence; the final hidden and cell states are dropped by
    every caller.  The feature size is checked first; then the sequence,
    which runs along the second dimension of a batch when [batch_first],
    must not be empty. *)
Definition forward (m : t) (x : shape) : result shape :=
  match x with
  | [d0; d1; f] =>
      if negb (f =? input_size m)
      then Raise (RuntimeError (InputSize (input_size m) f))
      else if (if batch_first m then d1 else d0) =? 0
      then Raise (RuntimeError EmptySequence)
      else Ok [d0; d1; out_features m]
  | [d0; f] =>
      if negb (f =? input_size m)
      then Raise (RuntimeError (InputSize (input_size m) f))
      else if d0 =? 0 then Raise (RuntimeError EmptySequence)
      else Ok [d0; out_features m]
  | _ => Raise ValueError
  end.
End LSTM.

Module Linear.
Record t := { in_features : N; out_features : N }.

Definition forward (m : t) (x : shape) : result shape :=
  match last x with
  | Some f =>
      if f =? in_features m then Ok (removelast x ++ [out_features m])
      else Raise (RuntimeError (MatMul (in_features m) f))
  | None => Raise (RuntimeError BadRank)
  end.
End Linear.

(** *** The model classes *)

Module MultilingualTTSEncoder.
Record t := { embedding : Embedding.t; lstm : LSTM.t; linear : Linear.t }.

Definition init (vocab_size embedding_dim hidden_dim : N) : result t :=
  let embedding := Embedding.Build_t vocab_size embedding_dim in
  lstm ← LSTM.init embedding_dim hidden_dim 2 true true;
  let linear := Linear.Build_t (hidden_dim * 2) hidden_dim in
  Ok {| embedding := embedding; lstm := lstm; linear := linear |}.

Definition forward (self : t) (x : LongTensor) : result shape :=
  x ← Embedding.forward (embedding self) x;
  x ← LSTM.forward (lstm self) x;
  x ← Linear.forward (linear self) x;
  Ok x.
End MultilingualTTSEncoder.

Module AccentStyleTransferModule.
Record t := {
  accent_embedding : Embedding.t;
  style_embedding : Embedding.t;
  fusion_0 : Linear.t;   (* followed by ReLU *)
  fusion_2 : Linear.t
}.

Definition init (hidden_dim num_accents num_styles : N) : t :=
  {| accent_embedding := Embedding.Build_t num_accents hidden_dim;
     style_embedding := Embedding.Build_t num_styles hidden_dim;
     fusion_0 := Linear.Build_t (hidden_dim * 3) hidden_dim;
     fusion_2 := Linear.Build_t hidden_dim hidden_dim |}.

Definition fusion (self : t) (x : shape) : result shape :=
  x ← Linear.forward (fusion_0 self) x;
  Linear.forward (fusion_2 self) x.

Definition forward (self : t) (encoder_output : shape)
    (accent_id style_id : LongTensor) : result shape :=
  match encoder_output with
  | [batch_size; seq_len; hidden_dim] =>
      a ← Embedding.forward (accent_embedding self) accent_id;
      a ← unsqueeze 1 a;
      accent_emb ← expand [None; Some seq_len; None] a;
      s ← Embedding.forward (style_embedding self) style_id;
      s ← unsqueeze 1 s;
      style_emb ← expand [None; Some seq_len; None] s;
      combined ← cat_last [encoder_output; accent_emb; style_emb];
      fusion self combined
  | _ => Raise ValueError
  end.
End AccentStyleTransferModule.

Module MultilingualTTSDecoder.
Record t := { lstm : LSTM.t; linear : Linear.t }.

Definition init (hidden_dim mel_bins : N) : result t :=
  lstm ← LSTM.init hidden_dim hidden_dim 2 true false;
  let linear := Linear.Build_t hidden_dim mel_bins in
  Ok {| lstm := lstm; linear := linear |}.

Definition forward (self : t) (x : shape) : result shape :=
  x ← LSTM.forward (lstm self) x;
  Linear.forward (linear self) x.
End MultilingualTTSDecoder.

Module MultilingualTTS.
Record t := {
  language_embedding : Embedding.t;
  encoder : MultilingualTTSEncoder.t;
  transfer_module : AccentStyleTransferModule.t;
  decoder : MultilingualTTSDecoder.t
}.

Definition init (vocab_size num_languages num_accents num_styles
                 embedding_dim hidden_dim mel_bins : N) : result t :=
  let language_embedding := Embedding.Build_t num_languages embedding_dim in
  encoder ← MultilingualTTSEncoder.init vocab_size embedding_dim hidden_dim;
  let transfer_module :=
    AccentStyleTransferModule.init hidden_dim num_accents num_styles in
  decoder ← MultilingualTTSDecoder.init hidden_dim mel_bins;
  Ok {| language_embedding := language_embedding; encoder := encoder;
        transfer_module := transfer_module; decoder := decoder |}.

Definition forward (self : t)
    (text_ids language_id accent_id style_id : LongTensor) : result shape :=
  encoder_output ← MultilingualTTSEncoder.forward (encoder self) text_ids;
  lang_emb ← Embedding.forward (language_embedding self) language_id;
  lang_emb ← unsqueeze 1 lang_emb;
  encoder_output ← add encoder_output lang_emb;
  transferred ← AccentStyleTransferModule.forward (transfer_module self)
                  encoder_output accent_id style_id;
  MultilingualTTSDecoder.forward (decoder self) transferred.
End MultilingualTTS.

(** What a call that returns has returned. *)
Definition returned {A : Type} (r : result A)
    : match r with Ok _ => A | Raise _ => unit end :=
  match r with
  | Ok a => a
  | Raise _ => tt
  end.

(** [MultilingualTTS(vocab_size=500)], the defaults of the constructor
    written out: the model that this call returns. *)
Definition startup_model : MultilingualTTS.t :=
  Eval cbv in returned (MultilingualTTS.init 500 11 5 3 256 512 80).

(** ** Requests and responses *)

Module TTSRequest.
Record t := {
  text : pystr;
  language : pystr;
  accent_id : Z;
  style_id : Z;
  speaker_id : option Z
}.
End TTSRequest.

Module TTSResponse.
(** [duration] is the quotient of two integers, kept exact. *)
Record t := {
  status : pystr;
  message : pystr;
  audio_url : option pystr;
  duration : option QArith_base.Q;
  language : pystr;
  accent_id : Z;
  style_id : Z
}.
End TTSResponse.

(** ** Paths *)

Definition slash : N := 47.

(** The pieces of a string between its slashes. *)
Fixpoint pieces (s : pystr) : list pystr :=
  match s with
  | [] => [[]]
  | c :: rest =>
      if c =? slash then [] :: pieces rest
      else match pieces rest with
           | p :: ps => (c :: p) :: ps
           | [] => [[c]]
           end
  end.

(** A [pathlib.Path] on POSIX: whether it starts at the root, and its
    parts.  Empty pieces and the piece [.] are dropped when the path is
    made; [..] is kept. *)
Record Path := { rooted : bool; parts : list pystr }.

(** [Path(s)] *)
Definition Path_of (s : pystr) : Path :=
  {| rooted := match s with c :: _ => c =? slash | [] => false end;
     parts := List.filter
                (fun piece => negb (bool_decide (piece = []))
                              && negb (bool_decide (piece = str ".")))
                (pieces s) |}.

(** [p / s]: a rooted right-hand side replaces the left-hand side. *)
Definition truediv (p : Path) (s : pystr) : Path :=
  let q := Path_of s in
  if rooted q then q
  else {| rooted := rooted p; parts := parts p ++ parts q |}.

(** What [os.stat] can find at a path. *)
Inductive kind := RegularFile | Directory | Special.

(** A name of printable ASCII characters that no file system refuses for
    its length. *)
Definition plain_name (name : pystr) : bool :=
  forallb (fun c => (32 <=? c) && (c <? 127)) name
  && (N.of_nat (length name) <=? 255).

Record FileResponse := { path : Path; media_type : pystr }.

(** What [sf.write(file, data, samplerate)] leaves in a .wav file: the
    frames as 16-bit words (the subtype PCM_16 is the default of the
    format) and the rate. *)
Record wav := { samples : list Z; samplerate : Z }.

(** What can go wrong on the medium while a request is served: the
    directory cannot be made, or the file cannot be opened for writing. *)
Inductive fault := MkdirFails | WriteFails.

(** ** The clock *)

Record datetime := {
  year : N; month : N; day : N; hour : N; minute : N; second : N
}.

Definition digit (n : N) : N := 48 + n mod 10.
Definition zfill2 (n : N) : pystr := [digit (n / 10); digit n].
Definition zfill4 (n : N) : pystr :=
  [digit (n / 1000); digit (n / 100); digit (n / 10); digit n].

(** [d.strftime("%Y%m%d_%H%M%S")] *)
Definition strftime (d : datetime) : pystr :=
  zfill4 (year d) ++ zfill2 (month d) ++ zfill2 (day d) ++ str "_"
  ++ zfill2 (hour d) ++ zfill2 (minute d) ++ zfill2 (second d).

(** [str(n)] for an integer *)
Definition str_int (n : Z) : pystr :=
  str (DecimalString.NilZero.string_of_int (Z.to_int n)).

(** [l.index(x)] *)
Fixpoint index (x : pystr) (l : list pystr) : result Z :=
  match l with
  | [] => Raise ValueError
  | y :: l' => if bool_decide (x = y) then Ok 0%Z else Z.succ <$> index x l'
  end.

(** [torch.tensor([x], dtype=torch.long)] *)
Definition tensor (xs : list Z) : LongTensor :=
  {| lshape := [N.of_nat (length xs)]; ldata := xs |}.

(** [a[0]] on an array of the given shape: the shape of the first row. *)
Definition getitem0 (a : shape) : result shape :=
  match a with
  | d :: a' => if d =? 0 then Raise IndexError else Ok a'
  | [] => Raise IndexError
  end.

(** [a.shape[0]] *)
Definition shape0 (a : shape) : result N :=
  match a with
  | d :: _ => Ok d
  | [] => Raise IndexError
  end.

(** [n] draws from a generator, in order. *)
Fixpoint draw {G A : Type} (next : G -> A * G) (n : nat) (g : G) : list A * G :=
  match n with
  | O => ([], g)
  | S n' => let (x, g') := next g in
            let (xs, g'') := draw next n' g' in
            (x :: xs, g'')
  end.

Inductive level := INFO | ERROR.

(** ** The server *)

Section App.
(** The interpreter and its libraries: the Unicode tables, the text of an
    exception ([str(e)]), the samples ([float64]) and the two random
    generators, of torch and of numpy. *)
Variable db : UnicodeDB.
Variable str_exn : exn -> pystr.
Variables (sample Generator RandomState : Type).
Variable torch_next : Generator -> N * Generator.
Variable randn_next : RandomState -> sample * RandomState.
(** The 16-bit word that the audio writer stores for a sample: the sample
    scaled, clipped and rounded. *)
Variable pcm_16 : sample -> Z.

(** The globals of the module and the world around it.  [outputs] is the
    directory of that name, [None] before it is created, and maps the
    names of its files to their contents: it holds regular files only, those
    the server writes.  [disk_fault] is the fault the medium has in store,
    if any. *)
Record State := {
  model : option MultilingualTTS.t;
  model_loaded : bool;
  outputs : option (gmap pystr wav);
  disk_fault : option fault;
  now : datetime;
  torch_gen : Generator;
  np_gen : RandomState;
  log : list (level * pystr)
}.

Definition set_model (m : option MultilingualTTS.t) (st : State) : State :=
  {| model := m; model_loaded := model_loaded st; outputs := outputs st;
     disk_fault := disk_fault st;
     now := now st; torch_gen := torch_gen st; np_gen := np_gen st;
     log := log st |}.
Definition set_model_loaded (b : bool) (st : State) : State :=
  {| model := model st; model_loaded := b; outputs := outputs st;
     disk_fault := disk_fault st;
     now := now st; torch_gen := torch_gen st; np_gen := np_gen st;
     log := log st |}.
Definition set_outputs (d : option (gmap pystr wav)) (st : State) : State :=
  {| model := model st; model_loaded := model_loaded st; outputs := d;
     disk_fault := disk_fault st;
     now := now st; torch_gen := torch_gen st; np_gen := np_gen st;
     log := log st |}.
Definition set_torch_gen (g : Generator) (st : State) : State :=
  {| model := model st; model_loaded := model_loaded st; outputs := outputs st;
     disk_fault := disk_fault st;
     now := now st; torch_gen := g; np_gen := np_gen st; log := log st |}.
Definition set_np_gen (g : RandomState) (st : State) : State :=
  {| model := model st; model_loaded := model_loaded st; outputs := outputs st;
     disk_fault := disk_fault st;
     now := now st; torch_gen := torch_gen st; np_gen := g; log := log st |}.
Definition set_log (l : list (level * pystr)) (st : State) : State :=
  {| model := model st; model_loaded := model_loaded st; outputs := outputs st;
     disk_fault := disk_fault st;
     now := now st; torch_gen := torch_gen st; np_gen := np_gen st; log := l |}.

(** A handler runs on the state and returns or raises; what it did to the
    state before raising stays done. *)
Definition M (A : Type) : Type := State -> result A * State.

#[global] Instance M_ret : MRet M := fun A a st => (Ok a, st).
#[global] Instance M_bind : MBind M := fun A B k m st =>
  match m st with
  | (Ok a, st') => k a st'
  | (Raise e, st') => (Raise e, st')
  end.

Definition raise {A : Type} (e : exn) : M A := fun st => (Raise e, st).
Definition lift {A : Type} (r : result A) : M A := fun st => (r, st).
Definition gets {A : Type} (f : State -> A) : M A := fun st => (Ok (f st), st).
Definition modify (f : State -> State) : M unit := fun st => (Ok tt, f st).

(** [try: body except Exception as e: handler e] *)
Definition try_except {A : Type} (body : M A) (handler : exn -> M A) : M A :=
  fun st =>
    match body st with
    | (Ok a, st') => (Ok a, st')
    | (Raise e, st') => handler e st'
    end.

Definition logger_info (msg : pystr) : M unit :=
  modify (fun st => set_log (log st ++ [(INFO, msg)]) st).
Definition logger_error (msg : pystr) : M unit :=
  modify (fun st => set_log (log st ++ [(ERROR, msg)]) st).

(** [torch.randint(low, high, size)] *)
Definition torch_randint (low high : Z) (size : shape) : M LongTensor :=
  fun st =>
    let n := N.to_nat (fold_right N.mul 1 size) in
    let (raw, g) := draw torch_next n (torch_gen st) in
    (Ok {| lshape := size;
           ldata := map (fun r => (low + Z.of_N r mod (high - low))%Z) raw |},
     set_torch_gen g st).

(** [np.random.randn(n)] *)
Definition np_random_randn (n : N) : M (list sample) :=
  fun st =>
    let (xs, g) := draw randn_next (N.to_nat n) (np_gen st) in
    (Ok xs, set_np_gen g st).

(** [model(text_ids, language_id, accent_id, style_id)] on the global. *)
Definition call_model (text_ids language_id accent_id style_id : LongTensor)
    : M shape :=
  m ← gets model;
  match m with
  | Some m => lift (MultilingualTTS.forward m text_ids language_id accent_id style_id)
  | None => raise TypeError
  end.

(** [Path("outputs").mkdir(exist_ok=True)]: nothing to do when the
    directory is there; making it can fail. *)
Definition mkdir_outputs : M unit :=
  dir ← gets outputs;
  match dir with
  | Some _ => mret tt
  | None =>
      f ← gets disk_fault;
      match f with
      | Some MkdirFails => raise OSError
      | _ => modify (set_outputs (Some ∅))
      end
  end.

(** [sf.write("outputs/" + name, data, samplerate)]: the file is opened for
    writing, which fails when the directory is missing or the medium
    refuses, and the frames are stored as PCM_16. *)
Definition sf_write (name : pystr) (data : list sample) (rate : Z) : M unit :=
  dir ← gets outputs;
  f ← gets disk_fault;
  match dir, f with
  | None, _ | _, Some WriteFails => raise (RuntimeError CannotOpen)
  | Some d, _ =>
      modify (set_outputs (Some (<[name := Build_wav (map pcm_16 data) rate]> d)))
  end.

(** [datetime.now()] *)
Definition datetime_now : M datetime := gets now.

(** The file system beyond the output directory, as [os.stat] finds it
    at the time of the call: what is at a path, nothing, or an error that
    [Path.exists] lets through.  (It is given the state, for a path can
    leave the directory and lead back into it.) *)
Variable os_stat : State -> Path -> result (option kind).

(** [os.stat(p)] as [Path.exists] uses it.  The output directory and its
    parent are directories once the directory is there; a name the directory
    holds is a regular file; a plain name it does not hold is not there.
    Everything else is beyond the directory. *)
Definition stat (p : Path) : M (option kind) :=
  fun st =>
    match rooted p, parts p with
    | false, [d] =>
        if bool_decide (d = str "outputs")
        then (Ok (if outputs st is Some _ then Some Directory else None), st)
        else (os_stat st p, st)
    | false, [d; name] =>
        if bool_decide (d = str "outputs") then
          if bool_decide (name = str "..")
          then (Ok (if outputs st is Some _ then Some Directory else None), st)
          else match outputs st ≫= (.!! name) with
               | Some _ => (Ok (Some RegularFile), st)
               | None => if plain_name name then (Ok None, st)
                         else (os_stat st p, st)
               end
        else (os_stat st p, st)
    | _, _ => (os_stat st p, st)
    end.

(** [p.exists()] *)
Definition Path_exists (p : Path) : M bool :=
  stat p ≫= fun found : option kind =>
  mret (if found is Some _ then true else false).

Definition startup_event : M unit :=
  try_except
    (logger_info (str "Loading TTS model...");;
     m ← lift (MultilingualTTS.init 500 11 5 3 256 512 80);
     modify (set_model (Some m));;
     modify (set_model_loaded true);;
     logger_info ([10003] ++ str " Model loaded successfully"))
    (fun e =>
       logger_error (str "Failed to load model: " ++ str_exn e);;
       modify (set_model_loaded false)).

(** The suite of the [try] statement of [synthesize]. *)
Definition synthesize_try (request : TTSRequest.t) : M TTSResponse.t :=
    (if negb (bool_decide (TTSRequest.language request ∈ LANGUAGES.*1)) then
       raise (HTTPException 400
                (str "Language " ++ TTSRequest.language request
                 ++ str " not supported"))
     else if (TTSRequest.accent_id request <? 0)%Z
             || (TTSRequest.accent_id request >=? 5)%Z then
       raise (HTTPException 400 (str "accent_id must be 0-4"))
     else if (TTSRequest.style_id request <? 0)%Z
             || (TTSRequest.style_id request >=? 3)%Z then
       raise (HTTPException 400 (str "style_id must be 0-2"))
     else
       let normalized_text :=
         normalize db (TTSRequest.text request) (TTSRequest.language request) in
       let batch_size := 1 in
       let seq_len := 150 in
       text_ids ← torch_randint 0 500 [batch_size; seq_len];
       i ← lift (index (TTSRequest.language request) (LANGUAGES.*1));
       let language_id := tensor [i] in
       let accent_id := tensor [TTSRequest.accent_id request] in
       let style_id := tensor [TTSRequest.style_id request] in
       mel_spec ← call_model text_ids language_id accent_id style_id;
       mkdir_outputs;;
       t ← datetime_now;
       let timestamp := strftime t in
       let audio_file := str "tts_" ++ timestamp ++ str ".wav" in
       mel_np ← lift (getitem0 mel_spec);
       rows ← lift (shape0 mel_np);
       audio ← np_random_randn (rows * 256);
       sf_write audio_file audio 22050;;
       let duration := QArith_base.Qmake (Z.of_nat (length audio)) 22050 in
       mret {| TTSResponse.status := str "success";
               TTSResponse.message := str "Speech synthesized successfully";
               TTSResponse.audio_url := Some (str "/audio/" ++ audio_file);
               TTSResponse.duration := Some duration;
               TTSResponse.language := TTSRequest.language request;
               TTSResponse.accent_id := TTSRequest.accent_id request;
               TTSResponse.style_id := TTSRequest.style_id request |}).

Definition synthesize (request : TTSRequest.t) : M TTSResponse.t :=
  loaded ← gets model_loaded;
  if negb loaded then raise (HTTPException 503 (str "Model not loaded")) else
  try_except (synthesize_try request)
    (fun e =>
       logger_error (str "Synthesis error: " ++ str_exn e);;
       raise (HTTPException 500 (str_exn e))).

(** The suite of the [try] statement of [get_inference]. *)
Definition get_inference_try (request : TTSRequest.t) : M TTSResponse.t :=
    (if negb (bool_decide (TTSRequest.language request ∈ LANGUAGES.*1)) then
       raise (HTTPException 400
                (str "Language " ++ TTSRequest.language request
                 ++ str " not supported"))
     else if (TTSRequest.accent_id request <? 0)%Z
             || (TTSRequest.accent_id request >=? 5)%Z then
       raise (HTTPException 400 (str "accent_id must be 0-4"))
     else if (TTSRequest.style_id request <? 0)%Z
             || (TTSRequest.style_id request >=? 3)%Z then
       raise (HTTPException 400 (str "style_id must be 0-2"))
     else
       let normalized_text :=
         normalize db (TTSRequest.text request) (TTSRequest.language request) in
       let batch_size := 1 in
       let seq_len := 150 in
       text_ids ← torch_randint 0 500 [batch_size; seq_len];
       i ← lift (index (TTSRequest.language request) (LANGUAGES.*1));
       let language_id := tensor [i] in
       let accent_id := tensor [TTSRequest.accent_id request] in
       let style_id := tensor [TTSRequest.style_id request] in
       mel_spec ← call_model text_ids language_id accent_id style_id;
       mkdir_outputs;;
       t ← datetime_now;
       let timestamp := strftime t in
       let audio_file := str "inference_" ++ timestamp ++ str ".wav" in
       mel_np ← lift (getitem0 mel_spec);
       rows ← lift (shape0 mel_np);
       audio ← np_random_randn (rows * 256);
       sf_write audio_file audio 22050;;
       let duration := QArith_base.Qmake (Z.of_nat (length audio)) 22050 in
       logger_info
         (str "Inference: " ++ take 50 (TTSRequest.text request)
          ++ str "... (lang=" ++ TTSRequest.language request
          ++ str ", accent=" ++ str_int (TTSRequest.accent_id request)
          ++ str ", style=" ++ str_int (TTSRequest.style_id request)
          ++ str ")");;
       mret {| TTSResponse.status := str "success";
               TTSResponse.message := str "Inference completed successfully";
               TTSResponse.audio_url := Some (str "/audio/" ++ audio_file);
               TTSResponse.duration := Some duration;
               TTSResponse.language := TTSRequest.language request;
               TTSResponse.accent_id := TTSRequest.accent_id request;
               TTSResponse.style_id := TTSRequest.style_id request |}).

Definition get_inference (request : TTSRequest.t) : M TTSResponse.t :=
  loaded ← gets model_loaded;
  if negb loaded then raise (HTTPException 503 (str "Model not loaded")) else
  try_except (get_inference_try request)
    (fun e =>
       logger_error (str "Inference error: " ++ str_exn e);;
       raise (HTTPException 500 (str_exn e))).

Definition get_audio (filename : pystr) : M FileResponse :=
  let audio_path := truediv (Path_of (str "outputs")) filename in
  found ← Path_exists audio_path;
  if negb found then raise (HTTPException 404 (str "Audio file not found"))
  else mret {| path := audio_path; media_type := str "audio/wav" |}.

(** What a [FileResponse] streams when it is sent: the content of the file
    of the output directory at its path.  [None]: its path is no file of
    that directory (on a directory the response fails when it is sent, and
    the client gets a 500). *)
Definition body (r : FileResponse) (st : State) : option wav :=
  match rooted (path r), parts (path r) with
  | false, [d; name] =>
      if bool_decide (d = str "outputs") && negb (bool_decide (name = str ".."))
      then outputs st ≫= (.!! name)
      else None
  | _, _ => None
  end.

(** *** The two synthesis routes *)

(** [POST /synthesize] and [POST /Get_Inference]. *)
Inductive endpoint := Synthesize | Get_Inference.

Definition post (ep : endpoint) : TTSRequest.t -> M TTSResponse.t :=
  match ep with
  | Synthesize => synthesize
  | Get_Inference => get_inference
  end.

Definition post_try (ep : endpoint) : TTSRequest.t -> M TTSResponse.t :=
  match ep with
  | Synthesize => synthesize_try
  | Get_Inference => get_inference_try
  end.

(** What the [except] clause of the route logs before the text of the
    exception. *)
Definition error_label (ep : endpoint) : pystr :=
  match ep with
  | Synthesize => str "Synthesis error: "
  | Get_Inference => str "Inference error: "
  end.

(** The name of the artifact of a route at a timestamp. *)
Definition artifact (ep : endpoint) (timestamp : pystr) : pystr :=
  match ep with
  | Synthesize => str "tts_" ++ timestamp ++ str ".wav"
  | Get_Inference => str "inference_" ++ timestamp ++ str ".wav"
  end.

Definition message (ep : endpoint) : pystr :=
  match ep with
  | Synthesize => str "Speech synthesized successfully"
  | Get_Inference => str "Inference completed successfully"
  end.

(** The answer of a route to a request, about the samples it wrote at a
    timestamp. *)
Definition answer (ep : endpoint) (request : TTSRequest.t)
    (timestamp : pystr) (audio : list sample) : TTSResponse.t :=
  {| TTSResponse.status := str "success";
     TTSResponse.message := message ep;
     TTSResponse.audio_url := Some (str "/audio/" ++ artifact ep timestamp);
     TTSResponse.duration :=
       Some (QArith_base.Qmake (Z.of_nat (length audio)) 22050);
     TTSResponse.language := TTSRequest.language request;
     TTSResponse.accent_id := TTSRequest.accent_id request;
     TTSResponse.style_id := TTSRequest.style_id request |}.

(** Two outcomes that differ in nothing but the prefix of the artifact's
    name and the message (and the log): the same exception, or the same
    answer about the same samples, with the disk and the generators left
    alike. *)
Definition same_outcome (a b : result TTSResponse.t * State) : Prop :=
  match a, b with
  | (Raise e1, s1), (Raise e2, s2) =>
      e1 = e2 /\ outputs s1 = outputs s2
      /\ torch_gen s1 = torch_gen s2 /\ np_gen s1 = np_gen s2
  | (Ok r1, s1), (Ok r2, s2) =>
      TTSResponse.status r1 = TTSResponse.status r2
      /\ TTSResponse.duration r1 = TTSResponse.duration r2
      /\ TTSResponse.language r1 = TTSResponse.language r2
      /\ TTSResponse.accent_id r1 = TTSResponse.accent_id r2
      /\ TTSResponse.style_id r1 = TTSResponse.style_id r2
      /\ torch_gen s1 = torch_gen s2 /\ np_gen s1 = np_gen s2
      /\ exists timestamp dir w,
           TTSResponse.audio_url r1
             = Some (str "/audio/" ++ artifact Synthesize timestamp)
           /\ TTSResponse.audio_url r2
              = Some (str "/audio/" ++ artifact Get_Inference timestamp)
           /\ outputs s1 = Some (<[artifact Synthesize timestamp := w]> dir)
           /\ outputs s2 = Some (<[artifact Get_Inference timestamp := w]> dir)
  | _, _ => False
  end.

(** A request that passes the three checks of the handlers. *)
Definition valid (request : TTSRequest.t) : Prop :=
  TTSRequest.language request ∈ LANGUAGES.*1
  /\ (0 <= TTSRequest.accent_id request < 5)%Z
  /\ (0 <= TTSRequest.style_id request < 3)%Z.

End App.

Arguments model {Generator RandomState} _.
Arguments model_loaded {Generator RandomState} _.
Arguments outputs {Generator RandomState} _.
Arguments disk_fault {Generator RandomState} _.
Arguments now {Generator RandomState} _.
Arguments torch_gen {Generator RandomState} _.
Arguments np_gen {Generator RandomState} _.
Arguments log {Generator RandomState} _.
Arguments set_log {Generator RandomState} _ _.
Arguments set_outputs {Generator RandomState} _ _.
Arguments set_torch_gen {Generator RandomState} _ _.
Arguments set_np_gen {Generator RandomState} _ _.
Arguments set_model {Generator RandomState} _ _.
Arguments set_model_loaded {Generator RandomState} _ _.
Arguments startup_event str_exn {Generator RandomState} _.
Arguments synthesize db str_exn {sample Generator RandomState} torch_next randn_next pcm_16 request _.
Arguments get_inference db str_exn {sample Generator RandomState} torch_next randn_next pcm_16 request _.
Arguments synthesize_try db {sample Generator RandomState} torch_next randn_next pcm_16 request _.
Arguments get_inference_try db {sample Generator RandomState} torch_next randn_next pcm_16 request _.
Arguments stat {Generator RandomState} os_stat p _.
Arguments Path_exists {Generator RandomState} os_stat p _.
Arguments get_audio {Generator RandomState} os_stat filename _.
Arguments body {Generator RandomState} r st.
Arguments post db str_exn {sample Generator RandomState} torch_next randn_next pcm_16 ep request _.
Arguments post_try db {sample Generator RandomState} torch_next randn_next pcm_16 ep request _.
Arguments same_outcome {Generator RandomState} a b.
Arguments torch_randint {Generator RandomState} torch_next low high size _.
Arguments np_random_randn {sample Generator RandomState} randn_next n _.
Arguments lift {Generator RandomState A} r _.
Arguments raise {Generator RandomState A} e _.
Arguments gets {Generator RandomState A} f _.
Arguments modify {Generator RandomState} f _.
Arguments try_except {Generator RandomState A} body handler _.
Arguments call_model {Generator RandomState} text_ids language_id accent_id style_id _.
Arguments mkdir_outputs {Generator RandomState} _.
Arguments datetime_now {Generator RandomState} _.
Arguments sf_write {sample Generator RandomState} pcm_16 name data rate _.
Arguments logger_info {Generator RandomState} msg _.
Arguments logger_error {Generator RandomState} msg _.
Arguments answer {sample} ep request timestamp audio.

(** ** The information routes *)

Module LanguageInfo.
Record t := { code : pystr; name : pystr; script : pystr }.
End LanguageInfo.

Module ModelInfo.
Record t := {
  name : pystr;
  version : pystr;
  languages : list LanguageInfo.t;
  accents : Z;
  styles : Z;
  parameters : Z
}.
End ModelInfo.

(** [GET /info] *)
Definition model_info : ModelInfo.t :=
  let languages :=
    map (fun '(code, name) =>
           {| LanguageInfo.code := code;
              LanguageInfo.name := name;
              LanguageInfo.script :=
                if bool_decide (code ∈ [str "hi"; str "mr"; str "bh";
                                         str "cc"; str "mg"; str "mt"])
                then str "Devanagari" else str "Other" |})
        LANGUAGES in
  {| ModelInfo.name := str "MultilingualTTS";
     ModelInfo.version := str "1.0.0";
     ModelInfo.languages := languages;
     ModelInfo.accents := 5;
     ModelInfo.styles := 3;
     ModelInfo.parameters := 2000000 |}.

Module Languages.
Record t := { languages : list (pystr * pystr); count : Z }.
End Languages.

(** [GET /languages] *)
Definition get_languages : Languages.t :=
  {| Languages.languages := LANGUAGES;
     Languages.count := Z.of_nat (length LANGUAGES) |}.

(** The status line of an outcome: 200 for a return, its own status for an
    HTTPException, 500 for any other exception that leaves a handler. *)
Definition status_code {A : Type} (r : result A) : Z :=
  match r with
  | Ok _ => 200
  | Raise (HTTPException status _) => status
  | Raise _ => 500
  end.

(** All the entries of an index tensor are indices below [n]. *)
Definition in_vocab (n : N) (x : LongTensor) : bool :=
  forallb (fun i => (0 <=? i)%Z && (i <? Z.of_N n)%Z) (ldata x).

(** A character of normalized ASCII text: the space, a digit, a small
    letter, or one of the punctuation set. *)
Definition normal_char (c : N) : bool :=
  (c =? space) || ((48 <=? c) && (c <=? 57)) || ((97 <=? c) && (c <=? 122))
  || existsb (N.eqb c) punctuation.

(** A date and time of day that [strftime] prints on fifteen characters. *)
Definition in_range (d : datetime) : Prop :=
  year d < 10000 /\ month d < 100 /\ day d < 100
  /\ hour d < 100 /\ minute d < 100 /\ second d < 100.

Section Routes.
Variable db : UnicodeDB.
Variable str_exn : exn -> pystr.
Variables (sample Generator RandomState : Type).
Variable torch_next : Generator -> N * Generator.
Variable randn_next : RandomState -> sample * RandomState.
Variable pcm_16 : sample -> Z.
(** The clock moves on to [t]. *)
Definition set_now (t : datetime) (st : State Generator RandomState)
    : State Generator RandomState :=
  {| model := model st; model_loaded := model_loaded st; outputs := outputs st;
     disk_fault := disk_fault st;
     now := t; torch_gen := torch_gen st; np_gen := np_gen st; log := log st |}.

(** A run of the server: requests that arrive one after the other, each on
    a route at a time of the clock. *)
Fixpoint serve (arrivals : list (datetime * endpoint * TTSRequest.t))
    (st : State Generator RandomState)
    : list (result TTSResponse.t) * State Generator RandomState :=
  match arrivals with
  | [] => ([], st)
  | (t, ep, request) :: rest =>
      let (answer, st') :=
        post db str_exn torch_next randn_next pcm_16 ep request (set_now t st) in
      let (answers, st'') := serve rest st' in
      (answer :: answers, st'')
  end.

(** [test_invalid_language] of the test script, run against the server: the
    request goes to /Get_Inference and the test passes on a 400. *)
Definition test_invalid_language (st : State Generator RandomState)
    : bool * State Generator RandomState :=
  let payload := {| TTSRequest.text := str "Hello";
                    TTSRequest.language := str "xx";
                    TTSRequest.accent_id := 0;
                    TTSRequest.style_id := 0;
                    TTSRequest.speaker_id := None |} in
  let (response, st') :=
    get_inference db str_exn torch_next randn_next pcm_16 payload st in
  if (status_code response =? 400)%Z then (true, st') else (false, st').

End Routes.

Arguments set_now {Generator RandomState} t st.
Arguments serve db str_exn {sample Generator RandomState} torch_next randn_next
  pcm_16 arrivals st.
Arguments test_invalid_language db str_exn {sample Generator RandomState}
  torch_next randn_next pcm_16 st.

(** ** A concrete interpreter

    An instance of the parameters, to run the handlers on: [str(e)] prints an
    HTTPException as its status and detail and any other exception by the
    name of its class, samples are integers (in units of full scale) that
    the writer scales and clips, both generators count up, and there is
    nothing beyond the output directory. *)

Definition demo_str_exn (e : exn) : pystr :=
  match e with
  | HTTPException c d => str_int c ++ str ": " ++ d
  | RuntimeError _ => str "RuntimeError"
  | IndexError => str "IndexError"
  | ValueError => str "ValueError"
  | TypeError => str "TypeError"
  | OSError => str "OSError"
  end.

Definition demo_torch_next (g : N) : N * N := (g * 7919, g + 1).
Definition demo_randn_next (g : N) : Z * N := ((Z.of_N g - 3)%Z, g + 1).
Definition demo_pcm_16 (x : Z) : Z := (Z.max (-32768) (Z.min 32767 (x * 32768)))%Z.
Definition demo_os_stat (st : State N N) (p : Path) : result (option kind) :=
  Ok None.

(** The process before [startup_event] has run, on an empty disk. *)
Definition demo_boot : State N N :=
  {| model := None; model_loaded := false; outputs := None;
     disk_fault := None;
     now := {| year := 2024; month := 3; day := 9;
               hour := 7; minute := 5; second := 1 |};
     torch_gen := 0; np_gen := 0; log := [] |}.

(** The process once [startup_event] has run. *)
Definition demo_started : State N N :=
  snd (startup_event demo_str_exn demo_boot).

Definition demo_post : endpoint -> TTSRequest.t -> M N N TTSResponse.t :=
  post ascii_db demo_str_exn demo_torch_next demo_randn_next demo_pcm_16.
Definition demo_post_try : endpoint -> TTSRequest.t -> M N N TTSResponse.t :=
  post_try ascii_db demo_torch_next demo_randn_next demo_pcm_16.

(** The same process, had the model been built with an embedding as wide as
    the hidden state (512): the widths then agree. *)
Definition agreeing_model : MultilingualTTS.t :=
  Eval cbv in returned (MultilingualTTS.init 500 11 5 3 512 512 80).
Definition demo_agreeing : State N N :=
  set_model (Some agreeing_model) demo_started.

(** The request of the documentation: text "नमस्ते दुनिया", language "hi". *)
Definition namaste : TTSRequest.t :=
  {| TTSRequest.text :=
       [0x928; 0x92E; 0x938; 0x94D; 0x924; 0x947; 0x20;
        0x926; 0x941; 0x928; 0x93F; 0x92F; 0x93E];
     TTSRequest.language := str "hi";
     TTSRequest.accent_id := 0;
     TTSRequest.style_id := 0;
     TTSRequest.speaker_id := None |}.

(** Another request: text "Hello" in Tamil, accent 4, style 2. *)
Definition hello_ta : TTSRequest.t :=
  {| TTSRequest.text := str "Hello";
     TTSRequest.language := str "ta";
     TTSRequest.accent_id := 4;
     TTSRequest.style_id := 2;
     TTSRequest.speaker_id := None |}.

(** The process with agreeing widths once it has served the request of the
    documentation on /synthesize. *)
Definition demo_served : State N N :=
  snd (post ascii_db demo_str_exn demo_torch_next demo_randn_next demo_pcm_16
         Synthesize namaste demo_agreeing).

(** ** The normalizer *)

Section NormalizerFacts.
Variable db : UnicodeDB.


Lemma join_cons_cons (sep : pystr) c w ws :
  join sep ((c :: w) :: ws) = c :: join sep (w :: ws).
Proof. destruct ws; reflexivity. Qed.

Lemma split_cons_space c s : isspace db c = true -> split db (c :: s) = split db s.
Proof. intros H. simpl. now rewrite H. Qed.

Lemma split_cons_nonspace_ne c s : isspace db c = false -> split db (c :: s) <> [].
Proof.
  intros H. simpl. rewrite H. destruct s as [|d s']; [discriminate|].
  destruct (isspace db d); [discriminate|].
  destruct (split db (d :: s')); discriminate.
Qed.

Lemma rstrip_cons_nonspace c s :
  isspace db c = false -> rstrip db (c :: s) = c :: rstrip db s.
Proof. intros H. simpl. rewrite H. now destruct (rstrip db s). Qed.

Lemma rstrip_cons_space c s :
  isspace db c = true ->
  rstrip db (c :: s) = match rstrip db s with [] => [] | r => c :: r end.
Proof. intros H. simpl. now rewrite H. Qed.

Lemma collapse_cons_nonspace c s :
  isspace db c = false ->
  collapse_whitespace db (c :: s) = c :: collapse_whitespace db s.
Proof. intros H. simpl. now rewrite H. Qed.

Lemma rstrip_nil_split s : rstrip db s = [] <-> split db s = [].
Proof.
  induction s as [|c s IH]; [easy|].
  destruct (isspace db c) eqn:Hc.
  - rewrite split_cons_space, rstrip_cons_space by assumption.
    destruct (rstrip db s) eqn:Hr.
    + split; intros _; [now apply IH | reflexivity].
    + split; [discriminate|]. intros Hs. apply IH in Hs. discriminate.
  - rewrite rstrip_cons_nonspace by assumption.
    split; [discriminate|]. intros Hs. now apply split_cons_nonspace_ne in Hs.
Qed.

(** One pass over the text relates the words of [split], joined, to the
    collapsed text: after a character that is not whitespace, and after
    one that is. *)
Lemma join_split_collapse s :
  (forall c, isspace db c = false ->
     join [space] (split db (c :: s)) = c :: collapse_whitespace db (rstrip db s))
  /\ (forall d, isspace db d = true -> rstrip db s <> [] ->
        collapse_whitespace db (d :: rstrip db s) = space :: join [space] (split db s)).
Proof.
  induction s as [|e s [IHword IHgap]].
  - split; [|easy]. intros c Hc. simpl. now rewrite Hc.
  - destruct (isspace db e) eqn:He; split.
    + intros c Hc.
      assert (Hsp : split db (c :: e :: s) = [c] :: split db s).
      { simpl. rewrite Hc, He. reflexivity. }
      rewrite Hsp, rstrip_cons_space by assumption.
      destruct (rstrip db s) as [|r0 r] eqn:Hr.
      * apply rstrip_nil_split in Hr. now rewrite Hr.
      * specialize (IHgap e He ltac:(discriminate)).
        rewrite IHgap.
        destruct (split db s) eqn:Hs; [|reflexivity].
        apply rstrip_nil_split in Hs. congruence.
    + intros d Hd Hne.
      rewrite rstrip_cons_space in * by assumption.
      destruct (rstrip db s) as [|r0 r] eqn:Hr; [easy|].
      specialize (IHgap e He ltac:(discriminate)).
      rewrite split_cons_space by assumption.
      rewrite <- IHgap. simpl. now rewrite Hd, He.
    + intros c Hc.
      assert (Hsp : split db (c :: e :: s) =
                    match split db (e :: s) with
                    | w :: ws => (c :: w) :: ws
                    | [] => [[c]]
                    end).
      { simpl. rewrite Hc, He. reflexivity. }
      rewrite Hsp.
      specialize (IHword e He).
      destruct (split db (e :: s)) as [|w ws] eqn:Hs.
      { now apply split_cons_nonspace_ne in Hs. }
      rewrite join_cons_cons, (rstrip_cons_nonspace e) by assumption.
      rewrite collapse_cons_nonspace by assumption.
      f_equal. exact IHword.
    + intros d Hd _.
      rewrite rstrip_cons_nonspace by assumption.
      rewrite (IHword e He).
      simpl. now rewrite Hd, He.
Qed.

(** [' '.join(text.split())] strips the text and collapses its runs. *)
Lemma join_split s :
  join [space] (split db s) = collapse_whitespace db (strip db s).
Proof.
  unfold strip. induction s as [|c s IH]; [reflexivity|].
  destruct (isspace db c) eqn:Hc.
  - rewrite split_cons_space by assumption. simpl lstrip. now rewrite Hc.
  - simpl lstrip. rewrite Hc.
    rewrite (proj1 (join_split_collapse s) c Hc).
    rewrite rstrip_cons_nonspace by assumption.
    simpl. now rewrite Hc.
Qed.

(** *** What [strip] takes off *)

Lemma lstrip_spec s :
  exists l, s = l ++ lstrip db s /\ forallb (isspace db) l = true
            /\ match lstrip db s with c :: _ => isspace db c = false | [] => True end.
Proof.
  induction s as [|c s (l & Hs & Hl & Hhd)]; [now exists []|].
  simpl. destruct (isspace db c) eqn:Hc.
  - exists (c :: l). simpl. rewrite Hc, Hl. repeat split; [congruence | assumption].
  - now exists [].
Qed.

Lemma rstrip_spec s :
  exists r, s = rstrip db s ++ r /\ forallb (isspace db) r = true
            /\ match last (rstrip db s) with Some c => isspace db c = false | None => True end.
Proof.
  induction s as [|c s (r & Hs & Hr & Hlast)]; [now exists []|].
  simpl. destruct (rstrip db s) as [|r0 rs] eqn:Hrs.
  - destruct (isspace db c) eqn:Hc.
    + exists (c :: r). simpl in *. rewrite Hc, Hr. repeat split. congruence.
    + exists r. simpl in *. repeat split; [congruence | assumption..].
  - exists r. repeat split; [simpl in *; congruence | assumption |].
    exact Hlast.
Qed.

Lemma strip_spec s :
  exists l r, s = l ++ strip db s ++ r
              /\ forallb (isspace db) l = true /\ forallb (isspace db) r = true
              /\ match strip db s with c :: _ => isspace db c = false | [] => True end
              /\ match last (strip db s) with Some c => isspace db c = false | None => True end.
Proof.
  unfold strip.
  destruct (lstrip_spec s) as (l & Hs & Hl & Hhd).
  destruct (rstrip_spec (lstrip db s)) as (r & Hs' & Hr & Hlast).
  exists l, r. repeat split; try assumption.
  - now rewrite <- Hs'.
  - destruct (lstrip db s) as [|c t]; [exact I|].
    now rewrite rstrip_cons_nonspace.
Qed.

(** *** Words *)

Lemma split_Forall (P : N -> Prop) s :
  Forall P s ->
  Forall (fun w => w <> [] /\ Forall (fun c => P c /\ isspace db c = false) w)
         (split db s).
Proof.
  induction 1 as [|c s Hc Hs IH]; [constructor|].
  simpl. destruct (isspace db c) eqn:Ec; [assumption|].
  destruct s as [|d s']; [repeat constructor; easy|].
  destruct (isspace db d) eqn:Ed.
  - constructor; [|assumption]. repeat constructor; easy.
  - destruct (split db (d :: s')) as [|w ws]; [repeat constructor; easy|].
    inversion IH as [|? ? [_ Hw] Hws]; subst.
    constructor; [|assumption]. split; [discriminate|]. constructor; easy.
Qed.

(** The words of a text are its characters that are not whitespace, in
    order. *)
Lemma concat_split s :
  concat (split db s) = List.filter (fun c => negb (isspace db c)) s.
Proof.
  induction s as [|c s IH]; [reflexivity|].
  cbn [List.filter]. destruct (isspace db c) eqn:Ec; cbn [negb].
  { now rewrite split_cons_space. }
  rewrite <- IH. clear IH.
  destruct s as [|d s'].
  { simpl. now rewrite Ec. }
  assert (Hsp : split db (c :: d :: s') =
                if isspace db d then [c] :: split db (d :: s')
                else match split db (d :: s') with
                     | w :: ws => (c :: w) :: ws
                     | [] => [[c]]
                     end).
  { simpl. now rewrite Ec. }
  rewrite Hsp. destruct (isspace db d) eqn:Ed; [reflexivity|].
  destruct (split db (d :: s')) as [|w ws] eqn:Es; [|reflexivity].
  now apply split_cons_nonspace_ne in Es.
Qed.

Lemma split_words s : Forall (word db) (split db s).
Proof.
  assert (H : Forall (fun _ => True) s) by (induction s; constructor; auto).
  apply (split_Forall _ s) in H.
  eapply Forall_impl; [exact H|].
  intros w [Hne Hw]. split; [assumption|].
  eapply Forall_impl; [exact Hw|]. now intros c [_ Hc].
Qed.

Lemma split_word_app w rest :
  word db w -> split db (w ++ space :: rest) = w :: split db rest.
Proof.
  intros [Hne Hw]. induction Hw as [|c w Hc Hw IH]; [easy|].
  destruct w as [|c' w'].
  - simpl. now rewrite Hc.
  - specialize (IH ltac:(discriminate)).
    inversion Hw as [|? ? Hc' _]; subst.
    change (split db ((c :: c' :: w') ++ space :: rest))
      with (if isspace db c then split db ((c' :: w') ++ space :: rest)
            else if isspace db c' then [c] :: split db ((c' :: w') ++ space :: rest)
            else match split db ((c' :: w') ++ space :: rest) with
                 | w0 :: ws0 => (c :: w0) :: ws0
                 | [] => [[c]]
                 end).
    now rewrite Hc, Hc', IH.
Qed.

Lemma split_word w : word db w -> split db w = [w].
Proof.
  intros [Hne Hw]. induction Hw as [|c w Hc Hw IH]; [easy|].
  destruct w as [|c' w'].
  - simpl. now rewrite Hc.
  - specialize (IH ltac:(discriminate)).
    inversion Hw as [|? ? Hc' _]; subst.
    change (split db (c :: c' :: w'))
      with (if isspace db c then split db (c' :: w')
            else if isspace db c' then [c] :: split db (c' :: w')
            else match split db (c' :: w') with
                 | w0 :: ws0 => (c :: w0) :: ws0
                 | [] => [[c]]
                 end).
    now rewrite Hc, Hc', IH.
Qed.

(** Splitting undoes joining, on words. *)
Lemma split_join_words ws :
  Forall (word db) ws -> split db (join [space] ws) = ws.
Proof.
  induction 1 as [|w ws Hw Hws IH]; [reflexivity|].
  destruct ws as [|w' ws'].
  - now apply split_word.
  - change (join [space] (w :: w' :: ws'))
      with (w ++ space :: join [space] (w' :: ws')).
    rewrite split_word_app by assumption. now rewrite IH.
Qed.

Lemma split_join_split s :
  split db (join [space] (split db s)) = split db s.
Proof. apply split_join_words, split_words. Qed.

Lemma join_Forall (P : N -> Prop) ws :
  P space -> Forall (Forall P) ws -> Forall P (join [space] ws).
Proof.
  intros Hsp. induction 1 as [|w ws Hw Hws IH]; [constructor|].
  destruct ws as [|w' ws']; [assumption|].
  change (join [space] (w :: w' :: ws'))
    with (w ++ space :: join [space] (w' :: ws')).
  apply Forall_app. split; [assumption|]. now constructor.
Qed.

(** *** Lower-casing ASCII *)




Lemma lower_ascii s :
  Forall (fun c => is_ascii c = true) s -> lower db s = map ascii_lower s.
Proof.
  intros H. unfold lower.
  replace (forallb is_ascii s) with true; [reflexivity|].
  symmetry. apply forallb_forall. intros c Hc.
  rewrite Forall_forall in H. apply H. now apply list_elem_of_In.
Qed.

Lemma filter_all (f : N -> bool) s :
  Forall (fun c => f c = true) s -> List.filter f s = s.
Proof.
  induction 1 as [|c s Hc Hs IH]; [reflexivity|].
  simpl. now rewrite Hc, IH.
Qed.

Lemma clean_space : clean db space.
Proof. split; reflexivity. Qed.

Lemma kept_in_punct c : kept db c = isalnum db c || in_punct c.
Proof. unfold kept, in_punct. symmetry. apply orb_assoc. Qed.

Lemma plain_clean c :
  is_ascii c && (ascii_isspace c || ascii_isalnum c
                 || existsb (N.eqb c) punctuation) = true ->
  isspace db c = false -> clean db c.
Proof.
  intros H Hsp. apply andb_true_iff in H as [Ha H].
  unfold isspace in Hsp. rewrite Ha in Hsp. rewrite Hsp in H.
  split; [assumption|]. rewrite <- kept_in_punct.
  unfold kept, isalnum. rewrite Ha.
  cbn [orb] in H. apply orb_true_iff in H as [H|H]; rewrite H;
    [reflexivity | apply orb_true_r].
Qed.



Lemma join_split_clean s :
  plain s -> Forall (clean db) (join [space] (split db s)).
Proof.
  intros H. apply join_Forall; [apply clean_space|].
  apply (split_Forall _ s) in H.
  eapply Forall_impl; [exact H|].
  intros w [_ Hw]. eapply Forall_impl; [exact Hw|].
  intros c [Hc Hsp]. now apply plain_clean.
Qed.

(** On such a text the pass is the lower-cased join of its words. *)
Lemma normalize_plain s language :
  plain s ->
  normalize db s language = map ascii_lower (join [space] (split db s)).
Proof.
  intros H. apply join_split_clean in H.
  unfold normalize.
  rewrite filter_all by (eapply Forall_impl; [exact H|]; now intros c [_ ?]).
  apply lower_ascii. eapply Forall_impl; [exact H|]. now intros c [? _].
Qed.

(** C7, as the code has it: normalize takes the whitespace off both ends
    of the text, collapses every remaining run of whitespace to one space,
    strips the characters that are neither alphanumeric, nor the space, nor
    among . , ! ? ; : and lower-cases the result; the language plays no
    part. *)
Theorem normalize_strips_collapses_filters_lowers text language :
  normalize db text language = normalize_spec db (strip db text)
  /\ forall language', normalize db text language' = normalize db text language.
Proof.
  split; [|reflexivity].
  unfold normalize, normalize_spec. rewrite join_split. f_equal.
  apply filter_ext. intros c. symmetry. apply kept_in_punct.
Qed.

End NormalizerFacts.

Example split_words_of_text :
  split ascii_db (str "  ab  c ") = [str "ab"; str "c"].
Proof. reflexivity. Qed.

Example collapse_whitespace_of_text :
  collapse_whitespace ascii_db (str "  a   b ") = str " a b ".
Proof. reflexivity. Qed.

Example strip_of_text : strip ascii_db (str "  a   b ") = str "a   b".
Proof. reflexivity. Qed.

Example normalize_hello :
  normalize ascii_db (str "  Hello,   World! ") (str "hi") = str "hello, world!".
Proof. reflexivity. Qed.

(** C7 as worded fails on text that begins (or ends) with whitespace: the
    leading run does not become a space, it goes. *)
Lemma normalize_drops_leading_whitespace :
  normalize ascii_db (str " a") (str "hi") = str "a"
  /\ normalize_spec ascii_db (str " a") = str " a"
  /\ normalize ascii_db (str " a") (str "hi") <> normalize_spec ascii_db (str " a").
Proof. repeat split. discriminate. Qed.


(** ** The handlers *)

Section HandlerFacts.
Variable db : UnicodeDB.
Variable str_exn : exn -> pystr.
Variables (sample Generator RandomState : Type).
Variable torch_next : Generator -> N * Generator.
Variable randn_next : RandomState -> sample * RandomState.
Variable pcm_16 : sample -> Z.
Variable os_stat : State Generator RandomState -> Path -> result (option kind).

Local Abbreviation state := (State Generator RandomState).
Local Abbreviation run := (post db str_exn torch_next randn_next pcm_16).
Local Abbreviation run_try := (post_try db torch_next randn_next pcm_16).

Lemma bind_run {A B : Type} (m : M Generator RandomState A)
    (k : A -> M Generator RandomState B) (st : state) :
  (m ≫= k) st =
  match m st with
  | (Ok a, st') => k a st'
  | (Raise e, st') => (Raise e, st')
  end.
Proof. reflexivity. Qed.

(** Either route is its guard, then its [try] suite under the catch-all
    clause. *)
Lemma post_unfold ep request (st : state) :
  run ep request st =
  if model_loaded st then
    match run_try ep request st with
    | (Ok a, st') => (Ok a, st')
    | (Raise e, st') =>
        (Raise (HTTPException 500 (str_exn e)),
         set_log (log st' ++ [(ERROR, error_label ep ++ str_exn e)]) st')
    end
  else (Raise (HTTPException 503 (str "Model not loaded")), st).
Proof.
  destruct ep; unfold post, post_try, synthesize, get_inference;
    unfold mbind, M_bind, gets, try_except;
    destruct (model_loaded st); try reflexivity; cbv beta iota;
    match goal with
    | |- context [?f db torch_next randn_next pcm_16 request st] =>
        destruct (f db torch_next randn_next pcm_16 request st) as [[a|e] st']
    end; reflexivity.
Qed.

(** C5: while the model is not loaded both routes answer 503 "Model not
    loaded" whatever the request, and leave the state as it was: nothing
    is validated, drawn, logged or written. *)
Theorem not_loaded_503 ep request (st : state) :
  model_loaded st = false ->
  run ep request st = (Raise (HTTPException 503 (str "Model not loaded")), st).
Proof. intros H. rewrite post_unfold, H. reflexivity. Qed.

(** C6: once past the guard, whatever exception the suite of a route
    raises comes back as a 500 whose detail is the text of that exception,
    logged under the label of the route; nothing else is told apart. *)
Theorem exception_becomes_500 ep request (st st' : state) e :
  model_loaded st = true ->
  run_try ep request st = (Raise e, st') ->
  run ep request st =
    (Raise (HTTPException 500 (str_exn e)),
     set_log (log st' ++ [(ERROR, error_label ep ++ str_exn e)]) st').
Proof. intros H Hbody. rewrite post_unfold, H, Hbody. reflexivity. Qed.

(** A loaded server that fails, fails with a 500. *)
Lemma loaded_failure_is_500 ep request (st : state) e :
  model_loaded st = true ->
  fst (run ep request st) = Raise e ->
  exists e0, e = HTTPException 500 (str_exn e0).
Proof.
  intros H. rewrite post_unfold, H.
  destruct (run_try ep request st) as [[a|e0] st']; simpl; [discriminate|].
  intros [= <-]. now exists e0.
Qed.

(** *** Startup *)

Lemma startup_event_loads (boot : state) :
  model (snd (startup_event str_exn boot)) = Some startup_model
  /\ model_loaded (snd (startup_event str_exn boot)) = true
  /\ outputs (snd (startup_event str_exn boot)) = outputs boot.
Proof. repeat split. Qed.

(** The timestamp is digits and an underscore: the name of an artifact is a
    single path component. *)
Lemma strftime_no_slash d : Forall (fun c => c <> 47) (strftime d).
Proof.
  unfold strftime, zfill4, zfill2, digit. cbn [app str].
  assert (Hd : forall x, 48 + x <> 47) by (intros x; lia).
  repeat (constructor; [first [apply Hd | now vm_compute]|]). constructor.
Qed.

(** *** The three checks *)

Lemma in_table x : bool_decide (x ∈ LANGUAGES.*1) = true -> x ∈ LANGUAGES.*1.
Proof. apply bool_decide_eq_true_1. Qed.

Lemma not_in_table x : bool_decide (x ∈ LANGUAGES.*1) = false -> x ∉ LANGUAGES.*1.
Proof. apply bool_decide_eq_false_1. Qed.

Lemma valid_namaste : valid namaste.
Proof. repeat split; try (cbn; lia). apply in_table. reflexivity. Qed.

Lemma post_try_bad_language ep request (st : state) :
  TTSRequest.language request ∉ LANGUAGES.*1 ->
  run_try ep request st =
    (Raise (HTTPException 400
              (str "Language " ++ TTSRequest.language request
               ++ str " not supported")), st).
Proof.
  intros H. destruct ep; unfold post_try, synthesize_try, get_inference_try;
    rewrite bool_decide_eq_false_2 by assumption; reflexivity.
Qed.

Lemma post_try_bad_accent ep request (st : state) :
  TTSRequest.language request ∈ LANGUAGES.*1 ->
  (TTSRequest.accent_id request < 0 \/ 5 <= TTSRequest.accent_id request)%Z ->
  run_try ep request st =
    (Raise (HTTPException 400 (str "accent_id must be 0-4")), st).
Proof.
  intros Hl Ha.
  assert (E : ((TTSRequest.accent_id request <? 0)
               || (TTSRequest.accent_id request >=? 5))%Z = true).
  { apply orb_true_iff. destruct Ha; [left; apply Z.ltb_lt | right; apply Z.geb_le]; lia. }
  destruct ep; unfold post_try, synthesize_try, get_inference_try;
    rewrite bool_decide_eq_true_2 by assumption; cbn [negb]; rewrite E; reflexivity.
Qed.

Lemma post_try_bad_style ep request (st : state) :
  TTSRequest.language request ∈ LANGUAGES.*1 ->
  (0 <= TTSRequest.accent_id request < 5)%Z ->
  (TTSRequest.style_id request < 0 \/ 3 <= TTSRequest.style_id request)%Z ->
  run_try ep request st =
    (Raise (HTTPException 400 (str "style_id must be 0-2")), st).
Proof.
  intros Hl Ha Hs.
  assert (Ea : ((TTSRequest.accent_id request <? 0)
                || (TTSRequest.accent_id request >=? 5))%Z = false).
  { apply orb_false_iff. split; [apply Z.ltb_ge | rewrite Z.geb_leb; apply Z.leb_gt]; lia. }
  assert (Es : ((TTSRequest.style_id request <? 0)
                || (TTSRequest.style_id request >=? 3))%Z = true).
  { apply orb_true_iff. destruct Hs; [left; apply Z.ltb_lt | right; apply Z.geb_le]; lia. }
  destruct ep; unfold post_try, synthesize_try, get_inference_try;
    rewrite bool_decide_eq_true_2 by assumption; cbn [negb]; rewrite Ea, Es; reflexivity.
Qed.

(** C1, as the code has it: with the model loaded, a request in a language
    outside the table is answered 500 on both routes, not 400: the 400
    raised by the check is caught by the catch-all clause of the handler
    and its text becomes the detail of a 500. *)
Theorem unsupported_language_answers_500 ep request (st : state) :
  model_loaded st = true ->
  TTSRequest.language request ∉ LANGUAGES.*1 ->
  fst (run ep request st) =
    Raise (HTTPException 500
             (str_exn (HTTPException 400
                         (str "Language " ++ TTSRequest.language request
                          ++ str " not supported")))).
Proof.
  intros H Hl. rewrite post_unfold, H, post_try_bad_language by assumption.
  reflexivity.
Qed.

(** C2, as the code has it: with the model loaded, a request whose
    accent_id is outside 0..4 or whose style_id is outside 0..2 is answered
    500 on both routes, whatever its language: the detail is the text of
    the 400 that the first failing check raised. *)
Theorem out_of_range_id_answers_500 ep request (st : state) :
  model_loaded st = true ->
  (TTSRequest.accent_id request < 0 \/ 5 <= TTSRequest.accent_id request
   \/ TTSRequest.style_id request < 0 \/ 3 <= TTSRequest.style_id request)%Z ->
  exists detail,
    fst (run ep request st) = Raise (HTTPException 500 (str_exn (HTTPException 400 detail)))
    /\ detail ∈ [ str "Language " ++ TTSRequest.language request ++ str " not supported";
                  str "accent_id must be 0-4"; str "style_id must be 0-2" ].
Proof.
  intros H Hr. rewrite post_unfold, H.
  destruct (decide (TTSRequest.language request ∈ LANGUAGES.*1)) as [Hl|Hl].
  - destruct (decide (0 <= TTSRequest.accent_id request < 5)%Z) as [Ha|Ha].
    + rewrite post_try_bad_style by (try assumption; lia).
      eexists. split; [reflexivity|]. repeat constructor.
    + rewrite post_try_bad_accent by (try assumption; lia).
      eexists. split; [reflexivity|]. repeat constructor.
  - rewrite post_try_bad_language by assumption.
    eexists. split; [reflexivity|]. repeat constructor.
Qed.

(** *** Retrieval *)

(** A name without a slash is one piece. *)
Lemma pieces_no_slash (s : pystr) : Forall (fun c => c <> slash) s -> pieces s = [s].
Proof.
  induction 1 as [|c s Hc _ IH]; [reflexivity|].
  simpl. rewrite IH. now destruct (N.eqb_spec c slash).
Qed.

(** A name that is one piece, and not [.], is a path of one part. *)
Lemma Path_of_name (name : pystr) :
  Forall (fun c => c <> slash) name ->
  name <> [] -> name <> str "." ->
  Path_of name = {| rooted := false; parts := [name] |}.
Proof.
  intros Hs Hn Hd. unfold Path_of.
  rewrite (pieces_no_slash name Hs). cbn [List.filter].
  rewrite (bool_decide_eq_false_2 (name = [])) by assumption.
  rewrite (bool_decide_eq_false_2 (name = str ".")) by assumption.
  cbn [negb andb].
  destruct name as [|c name']; [contradiction|].
  apply Forall_cons in Hs as [Hc _].
  destruct (N.eqb_spec c slash); [contradiction|]. reflexivity.
Qed.

(** Under the output directory such a name is the path of an entry. *)
Lemma truediv_entry (name : pystr) :
  Forall (fun c => c <> slash) name ->
  name <> [] -> name <> str "." ->
  truediv (Path_of (str "outputs")) name
  = {| rooted := false; parts := [str "outputs"; name] |}.
Proof.
  intros Hs Hn Hd. unfold truediv.
  rewrite (Path_of_name name Hs Hn Hd). reflexivity.
Qed.

Lemma stat_entry (name : pystr) (st : state) :
  name <> str ".." ->
  stat os_stat {| rooted := false; parts := [str "outputs"; name] |} st
  = (match outputs st ≫= (.!! name) with
     | Some _ => Ok (Some RegularFile)
     | None =>
         if plain_name name then Ok None
         else os_stat st {| rooted := false; parts := [str "outputs"; name] |}
     end, st).
Proof.
  intros Hdd. unfold stat. cbn [rooted parts].
  rewrite (bool_decide_eq_true_2 (str "outputs" = str "outputs")) by reflexivity.
  rewrite (bool_decide_eq_false_2 (name = str "..")) by assumption.
  destruct (outputs st ≫= (.!! name)); [reflexivity|].
  now destruct (plain_name name).
Qed.

(** Retrieval of an entry: the file when the directory holds it, 404 when
    the name is plain and the directory does not hold it; the state is left
    alone. *)
Lemma get_audio_entry (name : pystr) (st : state) :
  Forall (fun c => c <> slash) name ->
  name <> [] -> name <> str "." -> name <> str ".." ->
  match outputs st ≫= (.!! name) with
  | Some content =>
      exists r, get_audio os_stat name st = (Ok r, st)
                /\ media_type r = str "audio/wav"
                /\ body r st = Some content
  | None =>
      plain_name name = true ->
      get_audio os_stat name st
      = (Raise (HTTPException 404 (str "Audio file not found")), st)
  end.
Proof.
  intros Hs Hn Hd Hdd. unfold get_audio. cbv zeta.
  rewrite (truediv_entry name Hs Hn Hd).
  destruct (outputs st ≫= (.!! name)) as [content|] eqn:E.
  - eexists. split.
    { rewrite bind_run. unfold Path_exists. rewrite bind_run.
      rewrite (stat_entry name st Hdd), E. reflexivity. }
    split; [reflexivity|].
    unfold body. cbn [path rooted parts].
    rewrite (bool_decide_eq_true_2 (str "outputs" = str "outputs")) by reflexivity.
    rewrite (bool_decide_eq_false_2 (name = str "..")) by assumption.
    exact E.
  - intros Hp. rewrite bind_run. unfold Path_exists. rewrite bind_run.
    rewrite (stat_entry name st Hdd), E, Hp. reflexivity.
Qed.

(** C8, as the code has it: for the names [.] and [..] the path is the
    output directory or its parent, which exists once the directory does,
    so GET /audio/{filename} answers neither 404 nor a file: the handler
    returns a FileResponse, of media type audio/wav, on a directory, and
    there is no content to send. *)
Theorem get_audio_answers_on_directory filename (st : state) :
  filename = str "." \/ filename = str ".." ->
  is_Some (outputs st) ->
  exists r, get_audio os_stat filename st = (Ok r, st)
            /\ media_type r = str "audio/wav"
            /\ stat os_stat (path r) st = (Ok (Some Directory), st)
            /\ body r st = None.
Proof.
  intros Hf [dir Hdir].
  assert (Hstat : forall p,
            p = {| rooted := false; parts := [str "outputs"] |}
            \/ p = {| rooted := false; parts := [str "outputs"; str ".."] |} ->
            stat os_stat p st = (Ok (Some Directory), st)).
  { intros p [-> | ->]; unfold stat; cbn [rooted parts];
      rewrite (bool_decide_eq_true_2 (str "outputs" = str "outputs")) by reflexivity;
      [|rewrite (bool_decide_eq_true_2 (str ".." = str "..")) by reflexivity];
      rewrite Hdir; reflexivity. }
  assert (Hpath : truediv (Path_of (str "outputs")) filename
                  = {| rooted := false; parts := [str "outputs"] |}
                  \/ truediv (Path_of (str "outputs")) filename
                     = {| rooted := false; parts := [str "outputs"; str ".."] |}).
  { destruct Hf as [-> | ->]; [left | right]; vm_compute; reflexivity. }
  exists {| path := truediv (Path_of (str "outputs")) filename;
            media_type := str "audio/wav" |}.
  split.
  { unfold get_audio. cbv zeta. rewrite bind_run. unfold Path_exists.
    rewrite bind_run, (Hstat _ Hpath). reflexivity. }
  split; [reflexivity|]. split; [exact (Hstat _ Hpath)|].
  unfold body. cbn [path].
  destruct Hpath as [-> | ->]; cbn [rooted parts]; [reflexivity|].
  rewrite (bool_decide_eq_true_2 (str ".." = str "..")) by reflexivity.
  now rewrite andb_false_r.
Qed.

(** *** The model the server loads *)

Lemma randint_in_range (high : Z) (raw : list N) :
  (0 < high)%Z ->
  forallb (fun i => (0 <=? i)%Z && (i <? high)%Z)
          (map (fun r => (0 + Z.of_N r mod (high - 0))%Z) raw) = true.
Proof.
  intros Hh. induction raw as [|r raw IH]; [reflexivity|].
  simpl. rewrite IH, andb_true_r.
  pose proof (Z.mod_pos_bound (Z.of_N r) (high - 0) ltac:(lia)).
  apply andb_true_iff. split; [apply Z.leb_le | apply Z.ltb_lt]; lia.
Qed.

Lemma index_elem_of x l :
  x ∈ l -> exists i, index x l = Ok i /\ (0 <= i < Z.of_nat (length l))%Z.
Proof.
  induction l as [|y l IH]; [now intros ?%elem_of_nil|].
  intros Hx. simpl index. destruct (decide (x = y)) as [->|Hne].
  - rewrite bool_decide_eq_true_2 by reflexivity.
    exists 0%Z. split; [reflexivity|]. simpl length. lia.
  - rewrite bool_decide_eq_false_2 by assumption.
    apply elem_of_cons in Hx as [?|Hx]; [contradiction|].
    destruct (IH Hx) as (i & -> & Hi).
    exists (Z.succ i). split; [reflexivity|]. simpl length. lia.
Qed.

(** The forward pass of the loaded model stops where the language
    embedding, 256 wide, is added to the encoder output, 512 wide. *)
Lemma startup_model_forward text_ids language_id accent_id style_id :
  lshape text_ids = [1; 150] ->
  forallb (fun i => (0 <=? i)%Z && (i <? 500)%Z) (ldata text_ids) = true ->
  lshape language_id = [1] ->
  forallb (fun i => (0 <=? i)%Z && (i <? 11)%Z) (ldata language_id) = true ->
  MultilingualTTS.forward startup_model text_ids language_id accent_id style_id
  = Raise (RuntimeError (SizeMismatch 512 256)).
Proof.
  intros Hs Hd Hls Hld.
  unfold MultilingualTTS.forward, MultilingualTTSEncoder.forward, Embedding.forward.
  cbn [startup_model MultilingualTTS.init MultilingualTTS.encoder
       MultilingualTTS.language_embedding MultilingualTTSEncoder.init
       MultilingualTTSEncoder.embedding MultilingualTTSEncoder.lstm
       MultilingualTTSEncoder.linear Embedding.num_embeddings
       Embedding.embedding_dim].
  change (Z.of_N 500) with 500%Z. change (Z.of_N 11) with 11%Z.
  rewrite Hd, Hld, Hs, Hls. reflexivity.
Qed.

Lemma post_try_startup_model ep request (st : state) :
  model st = Some startup_model ->
  valid request ->
  run_try ep request st =
    (Raise (RuntimeError (SizeMismatch 512 256)),
     set_torch_gen (snd (draw torch_next 150 (torch_gen st))) st).
Proof.
  intros Hm (Hl & Ha & Hs).
  assert (Ea : ((TTSRequest.accent_id request <? 0)
                || (TTSRequest.accent_id request >=? 5))%Z = false).
  { apply orb_false_iff. split; [apply Z.ltb_ge | rewrite Z.geb_leb; apply Z.leb_gt]; lia. }
  assert (Es : ((TTSRequest.style_id request <? 0)
                || (TTSRequest.style_id request >=? 3))%Z = false).
  { apply orb_false_iff. split; [apply Z.ltb_ge | rewrite Z.geb_leb; apply Z.leb_gt]; lia. }
  destruct (index_elem_of _ _ Hl) as (i & Hi & Hrange).
  destruct ep; unfold post_try, synthesize_try, get_inference_try;
    rewrite bool_decide_eq_true_2 by assumption; cbn [negb]; rewrite Ea, Es;
    cbv zeta; rewrite bind_run; unfold torch_randint;
    change (N.to_nat (fold_right N.mul 1 [1; 150])) with 150%nat;
    destruct (draw torch_next 150 (torch_gen st)) as [raw g];
    cbn [snd]; rewrite bind_run; unfold lift at 1; rewrite Hi;
    rewrite bind_run; unfold call_model; rewrite bind_run; unfold gets at 1;
    cbn [model set_torch_gen]; rewrite Hm; unfold lift at 1;
    rewrite startup_model_forward;
    try reflexivity; try (apply randint_in_range; lia);
    cbn [ldata tensor forallb]; rewrite andb_true_r;
    apply andb_true_iff; (split; [apply Z.leb_le | apply Z.ltb_lt]);
    cbn in Hrange; lia.
Qed.

(** On the model the server loads, a valid request does not complete: on
    both routes it is answered 500, the detail being the text of the
    RuntimeError of the forward pass, and the output directory is left as
    it was. *)
Lemma valid_request_answers_500 ep request (st : state) :
  model_loaded st = true ->
  model st = Some startup_model ->
  valid request ->
  fst (run ep request st)
    = Raise (HTTPException 500 (str_exn (RuntimeError (SizeMismatch 512 256))))
  /\ outputs (snd (run ep request st)) = outputs st.
Proof.
  intros H Hm Hv. rewrite post_unfold, H, post_try_startup_model by assumption.
  split; reflexivity.
Qed.

(** On the model the server loads, every request that passes the guard is
    answered 500, valid or not. *)
Lemma loaded_server_answers_500 ep request (st : state) :
  model_loaded st = true ->
  model st = Some startup_model ->
  exists e, fst (run ep request st) = Raise (HTTPException 500 (str_exn e)).
Proof.
  intros H Hm. rewrite post_unfold, H.
  destruct (decide (TTSRequest.language request ∈ LANGUAGES.*1)) as [Hl|Hl];
    [|rewrite post_try_bad_language by assumption; now eexists].
  destruct (decide (0 <= TTSRequest.accent_id request < 5)%Z) as [Ha|Ha];
    [|rewrite post_try_bad_accent by (try assumption; lia); now eexists].
  destruct (decide (0 <= TTSRequest.style_id request < 3)%Z) as [Hs|Hs];
    [|rewrite post_try_bad_style by (try assumption; lia); now eexists].
  rewrite post_try_startup_model by (try assumption; now repeat split).
  now eexists.
Qed.

(** *** The shapes through an arbitrary model *)

Lemma draw_length {G A : Type} (next : G -> A * G) n g :
  length (fst (draw next n g)) = n.
Proof.
  revert g. induction n as [|n IH]; intros g; [reflexivity|].
  simpl. destruct (next g) as [x g']. specialize (IH g').
  destruct (draw next n g') as [xs g'']. simpl in *. now rewrite IH.
Qed.

Lemma Linear_forward_3d m b t f y :
  Linear.forward m [b; t; f] = Ok y -> y = [b; t; Linear.out_features m].
Proof.
  unfold Linear.forward. cbn [last removelast app].
  destruct (f =? Linear.in_features m); [|discriminate]. now intros [= <-].
Qed.

Lemma LSTM_forward_3d m b t f y :
  LSTM.forward m [b; t; f] = Ok y -> y = [b; t; LSTM.out_features m].
Proof.
  unfold LSTM.forward.
  destruct (f =? LSTM.input_size m); [|discriminate]. cbn [negb].
  destruct (_ =? 0); [discriminate|]. now intros [= <-].
Qed.

Lemma Embedding_forward_shape m x y :
  Embedding.forward m x = Ok y -> y = lshape x ++ [Embedding.embedding_dim m].
Proof.
  unfold Embedding.forward. destruct (forallb _ _); [|discriminate].
  now intros [= <-].
Qed.

Lemma add_3d_111 b t f e y :
  add [b; t; f] [1; 1; e] = Ok y -> exists f', y = [b; t; f'].
Proof.
  assert (Hb : broadcast_rev [t; b] [1; 1] = Ok [t; b]).
  { cbn [broadcast_rev].
    destruct (N.eqb_spec b 1) as [->|?], (N.eqb_spec t 1) as [->|?]; reflexivity. }
  unfold add.
  change (reverse [b; t; f]) with [f; t; b].
  change (reverse [1; 1; e]) with [e; 1; 1].
  change (broadcast_rev [f; t; b] [e; 1; 1])
    with (if f =? e then cons f <$> broadcast_rev [t; b] [1; 1]
          else if f =? 1 then cons e <$> broadcast_rev [t; b] [1; 1]
          else if e =? 1 then cons f <$> broadcast_rev [t; b] [1; 1]
          else Raise (RuntimeError (SizeMismatch f e))).
  rewrite Hb.
  destruct (f =? e); [intros [= <-]; now eexists|].
  destruct (f =? 1); [intros [= <-]; now eexists|].
  destruct (e =? 1); [intros [= <-]; now eexists|discriminate].
Qed.

Lemma result_bind_Ok {A B : Type} (r : result A) (k : A -> result B) y :
  r ≫= k = Ok y -> exists a, r = Ok a /\ k a = Ok y.
Proof.
  unfold mbind, result_bind. destruct r as [a|e]; [|discriminate].
  intros H. now exists a.
Qed.

Lemma cat_last_3d b t f us y :
  cat_last ([b; t; f] :: us) = Ok y -> exists f', y = [b; t; f'].
Proof.
  unfold cat_last. destruct (forallb _ _); [|discriminate].
  intros [= <-]. now eexists.
Qed.

Lemma encoder_forward_shape m x b t y :
  lshape x = [b; t] ->
  MultilingualTTSEncoder.forward m x = Ok y -> exists f, y = [b; t; f].
Proof.
  intros Hx. unfold MultilingualTTSEncoder.forward. intros H.
  apply result_bind_Ok in H as (x1 & H1 & H).
  apply result_bind_Ok in H as (x2 & H2 & H).
  apply result_bind_Ok in H as (x3 & H3 & H).
  injection H as <-.
  apply Embedding_forward_shape in H1. rewrite Hx in H1. subst x1.
  apply LSTM_forward_3d in H2. subst x2.
  apply Linear_forward_3d in H3. subst x3. now eexists.
Qed.

Lemma transfer_forward_shape m b t f accent_id style_id y :
  AccentStyleTransferModule.forward m [b; t; f] accent_id style_id = Ok y ->
  exists f', y = [b; t; f'].
Proof.
  unfold AccentStyleTransferModule.forward, AccentStyleTransferModule.fusion.
  intros H.
  apply result_bind_Ok in H as (a1 & _ & H).
  apply result_bind_Ok in H as (a2 & _ & H).
  apply result_bind_Ok in H as (a3 & _ & H).
  apply result_bind_Ok in H as (s1 & _ & H).
  apply result_bind_Ok in H as (s2 & _ & H).
  apply result_bind_Ok in H as (s3 & _ & H).
  apply result_bind_Ok in H as (c & Hc & H).
  apply result_bind_Ok in H as (x & Hx & H).
  apply cat_last_3d in Hc as (f1 & ->).
  apply Linear_forward_3d in Hx. subst x.
  apply Linear_forward_3d in H. subst y. now eexists.
Qed.

Lemma decoder_forward_shape m b t f y :
  MultilingualTTSDecoder.forward m [b; t; f] = Ok y -> exists f', y = [b; t; f'].
Proof.
  unfold MultilingualTTSDecoder.forward. intros H.
  apply result_bind_Ok in H as (x & Hx & H).
  apply LSTM_forward_3d in Hx. subst x.
  apply Linear_forward_3d in H. subst y. now eexists.
Qed.

(** Whatever the widths of the model, a forward pass that returns keeps
    the batch and the sequence length of the text. *)
Lemma forward_shape m text_ids language_id accent_id style_id b t y :
  lshape text_ids = [b; t] ->
  lshape language_id = [1] ->
  MultilingualTTS.forward m text_ids language_id accent_id style_id = Ok y ->
  exists f, y = [b; t; f].
Proof.
  intros Hx Hl. unfold MultilingualTTS.forward. intros H.
  apply result_bind_Ok in H as (enc & Henc & H).
  apply result_bind_Ok in H as (l1 & Hl1 & H).
  apply result_bind_Ok in H as (l2 & Hl2 & H).
  apply result_bind_Ok in H as (enc' & Hadd & H).
  apply result_bind_Ok in H as (tr & Htr & H).
  apply (encoder_forward_shape _ _ b t) in Henc as (f0 & ->); [|assumption].
  apply Embedding_forward_shape in Hl1. rewrite Hl in Hl1. subst l1.
  injection Hl2 as <-.
  apply add_3d_111 in Hadd as (f1 & ->).
  apply transfer_forward_shape in Htr as (f2 & ->).
  now apply decoder_forward_shape in H.
Qed.

(** *** The suite, case by case *)

Ltac run_suite :=
  repeat first
    [ rewrite bind_run
    | progress unfold torch_randint, lift, call_model, gets, mkdir_outputs,
        modify, datetime_now, np_random_randn, sf_write, raise, logger_info,
        mret, M_ret
    | progress change (N.to_nat (fold_right N.mul 1 [1; 150])) with 150%nat
    | progress cbn [model outputs disk_fault now torch_gen np_gen log
                    set_torch_gen set_outputs set_np_gen set_log fst snd]
    | progress cbv beta iota zeta
    | match goal with
      | H : draw _ _ _ = _ |- _ => rewrite H
      | H : index _ _ = _ |- _ => rewrite H
      | H : model _ = _ |- _ => rewrite H
      | H : outputs _ = _ |- _ => rewrite H
      | H : disk_fault _ = _ |- _ => rewrite H
      | H : MultilingualTTS.forward _ _ _ _ _ = _ |- _ => rewrite H
      | H : getitem0 _ = _ |- _ => rewrite H
      | H : shape0 _ = _ |- _ => rewrite H
      end ].

(** Past the guard, a request either makes both suites raise the same
    exception from the same state, or makes both return: then the request
    is valid, the samples are 38400 and the same on both routes, and each
    route writes them under its own name. *)
Lemma post_try_cases request (st : state) :
  (exists e st', forall ep, run_try ep request st = (Raise e, st'))
  \/ (valid request
      /\ exists dir audio (st' : state),
           Z.of_nat (length audio) = 38400%Z
           /\ forall ep, exists st'' : state,
                run_try ep request st
                = (Ok (answer ep request (strftime (now st)) audio), st'')
                /\ outputs st''
                   = Some (<[artifact ep (strftime (now st))
                             := Build_wav (map pcm_16 audio) 22050]> dir)
                /\ torch_gen st'' = torch_gen st'
                /\ np_gen st'' = np_gen st').
Proof.
  destruct (decide (TTSRequest.language request ∈ LANGUAGES.*1)) as [Hl|Hl];
    [|left; do 2 eexists; intros ep; now apply post_try_bad_language].
  destruct (decide (0 <= TTSRequest.accent_id request < 5)%Z) as [Ha|Ha];
    [|left; do 2 eexists; intros ep; apply post_try_bad_accent; [assumption|lia]].
  destruct (decide (0 <= TTSRequest.style_id request < 3)%Z) as [Hs|Hs];
    [|left; do 2 eexists; intros ep; apply post_try_bad_style; [assumption..|lia]].
  assert (Ea : ((TTSRequest.accent_id request <? 0)
                || (TTSRequest.accent_id request >=? 5))%Z = false).
  { apply orb_false_iff. split; [apply Z.ltb_ge | rewrite Z.geb_leb; apply Z.leb_gt]; lia. }
  assert (Es : ((TTSRequest.style_id request <? 0)
                || (TTSRequest.style_id request >=? 3))%Z = false).
  { apply orb_false_iff. split; [apply Z.ltb_ge | rewrite Z.geb_leb; apply Z.leb_gt]; lia. }
  assert (Hstart : forall ep,
    run_try ep request st =
    (text_ids ← torch_randint torch_next 0 500 [1; 150];
     i ← lift (index (TTSRequest.language request) (LANGUAGES.*1));
     mel_spec ← call_model text_ids (tensor [i])
                 (tensor [TTSRequest.accent_id request])
                 (tensor [TTSRequest.style_id request]);
     mkdir_outputs;;
     t ← datetime_now;
     mel_np ← lift (getitem0 mel_spec);
     rows ← lift (shape0 mel_np);
     audio ← np_random_randn randn_next (rows * 256);
     sf_write pcm_16 (artifact ep (strftime t)) audio 22050;;
     match ep with
     | Synthesize => mret (answer ep request (strftime t) audio)
     | Get_Inference =>
         logger_info
           (str "Inference: " ++ take 50 (TTSRequest.text request)
            ++ str "... (lang=" ++ TTSRequest.language request
            ++ str ", accent=" ++ str_int (TTSRequest.accent_id request)
            ++ str ", style=" ++ str_int (TTSRequest.style_id request)
            ++ str ")");;
         mret (answer ep request (strftime t) audio)
     end) st).
  { intros ep. destruct ep; unfold post_try, synthesize_try, get_inference_try;
      rewrite bool_decide_eq_true_2 by assumption; cbn [negb]; rewrite Ea, Es;
      reflexivity. }
  destruct (draw torch_next 150 (torch_gen st)) as [raw g] eqn:Hraw.
  destruct (index_elem_of _ _ Hl) as (i & Hi & _).
  destruct (model st) as [m|] eqn:Hm;
    [|left; do 2 eexists; intros ep; rewrite Hstart; run_suite; reflexivity].
  destruct (MultilingualTTS.forward m
              {| lshape := [1; 150];
                 ldata := map (fun r => (0 + Z.of_N r mod (500 - 0))%Z) raw |}
              (tensor [i]) (tensor [TTSRequest.accent_id request])
              (tensor [TTSRequest.style_id request])) as [mel|e] eqn:Hf;
    [|left; do 2 eexists; intros ep; rewrite Hstart; run_suite; reflexivity].
  pose proof Hf as Hshape.
  apply (forward_shape _ _ _ _ _ 1 150) in Hshape; [|reflexivity..].
  destruct Hshape as (f & ->).
  destruct (draw randn_next (N.to_nat (150 * 256)) (np_gen st)) as [audio g'] eqn:Haud.
  assert (Hlen : Z.of_nat (length audio) = 38400%Z).
  { pose proof (draw_length randn_next (N.to_nat (150 * 256)) (np_gen st)) as Hlen.
    rewrite Haud in Hlen. cbn [fst] in Hlen. rewrite Hlen, N_nat_Z. reflexivity. }
  destruct (outputs st) as [dir|] eqn:Hout;
    destruct (disk_fault st) as [[|]|] eqn:Hflt;
    try (left; do 2 eexists; intros ep; rewrite Hstart; run_suite;
         change (getitem0 [1; 150; f]) with (Ok (A:=shape) [150; f]); run_suite;
         change (shape0 [150; f]) with (Ok (A:=N) 150); run_suite;
         reflexivity);
    right; (split; [exact (conj Hl (conj Ha Hs))|]);
    [exists dir | exists dir | exists ∅];
    exists audio, (set_np_gen g' (set_torch_gen g st));
    (split; [exact Hlen|]);
    intros ep; destruct ep; eexists;
    (split;
     [rewrite Hstart; run_suite;
      change (getitem0 [1; 150; f]) with (Ok (A:=shape) [150; f]); run_suite;
      change (shape0 [150; f]) with (Ok (A:=N) 150); run_suite;
      reflexivity|]);
    cbn [outputs torch_gen np_gen set_log set_outputs set_np_gen set_torch_gen];
    repeat split.
Qed.

(** *** What a request that completes gets *)

(** Were the widths of the model to agree, so that a request completes:
    the request is valid, the answer echoes it under "success", the
    duration is 38400 / 22050 whatever the text, and the file that the
    audio_url names holds the samples. *)
Lemma post_Ok_inv ep request (st st' : state) resp :
  run ep request st = (Ok resp, st') ->
  valid request
  /\ exists audio,
       resp = answer ep request (strftime (now st)) audio
       /\ Z.of_nat (length audio) = 38400%Z
       /\ TTSResponse.duration resp = Some (QArith_base.Qmake (150 * 256) 22050)
       /\ outputs st' ≫= (.!! artifact ep (strftime (now st)))
          = Some (Build_wav (map pcm_16 audio) 22050).
Proof.
  rewrite post_unfold. destruct (model_loaded st); [|discriminate].
  destruct (post_try_cases request st)
    as [(e & s1 & H)|(Hv & dir & audio & s1 & Hlen & H)].
  - rewrite H. discriminate.
  - destruct (H ep) as (s2 & E & Ho & _). rewrite E. intros [= <- <-].
    split; [assumption|]. exists audio. split; [reflexivity|].
    split; [exact Hlen|]. split.
    + cbn [answer TTSResponse.duration]. now rewrite Hlen.
    + rewrite Ho. cbn [mbind option_bind]. apply lookup_insert_eq.
Qed.

(** C3: a synthesis request that completes, on either route, returns the
    duration 150 * 256 / 22050 seconds, whatever its text and the length
    of its text (and whatever else it asks).  Only a valid request, on a
    loaded model, completes. *)
Theorem completed_request_duration ep request (st st' : state) resp :
  post db str_exn torch_next randn_next pcm_16 ep request st = (Ok resp, st') ->
  TTSResponse.duration resp = Some (QArith_base.Qmake (150 * 256) 22050)
  /\ valid request /\ model_loaded st = true.
Proof.
  intros H. pose proof H as H'.
  apply post_Ok_inv in H as (Hv & audio & _ & _ & Hd & _).
  split; [exact Hd|]. split; [exact Hv|].
  rewrite post_unfold in H'. now destruct (model_loaded st).
Qed.

(** C9: the answer to a synthesis request that completes echoes the
    language, the accent_id and the style_id of the request, its status is
    "success", and its audio_url names, under /audio/, the artifact that
    the request has written: the file of that name in the output directory
    holds the 38400 frames of this request at 22050 Hz. *)
Theorem completed_request_echoes ep request (st st' : state) resp :
  post db str_exn torch_next randn_next pcm_16 ep request st = (Ok resp, st') ->
  TTSResponse.status resp = str "success"
  /\ TTSResponse.language resp = TTSRequest.language request
  /\ TTSResponse.accent_id resp = TTSRequest.accent_id request
  /\ TTSResponse.style_id resp = TTSRequest.style_id request
  /\ exists audio,
       Z.of_nat (length audio) = 38400%Z
       /\ TTSResponse.audio_url resp
          = Some (str "/audio/" ++ artifact ep (strftime (now st)))
       /\ outputs st' ≫= (.!! artifact ep (strftime (now st)))
          = Some (Build_wav (map pcm_16 audio) 22050).
Proof.
  intros H. apply post_Ok_inv in H as (_ & audio & -> & Hlen & _ & Hfile).
  repeat (split; [reflexivity|]).
  exists audio. split; [exact Hlen|]. split; [reflexivity | exact Hfile].
Qed.

(** C10: on equal requests and equal state the two routes do the same:
    the same exception with the same detail, or answers equal in status,
    duration and echoed fields about the same samples, the disk and the
    generators left alike; they differ in the prefix of the artifact's
    name, tts_ or inference_, and in the message. *)
Theorem synthesize_get_inference_agree request (st : state) :
  same_outcome (synthesize db str_exn torch_next randn_next pcm_16 request st)
               (get_inference db str_exn torch_next randn_next pcm_16 request st).
Proof.
  change (same_outcome (run Synthesize request st) (run Get_Inference request st)).
  rewrite !post_unfold. destruct (model_loaded st); [|cbn; repeat split].
  destruct (post_try_cases request st)
    as [(e & s1 & H)|(Hv & dir & audio & s1 & Hlen & H)].
  - rewrite !H. cbn. repeat split.
  - destruct (H Synthesize) as (sa & Ea & Oa & Ta & Na).
    destruct (H Get_Inference) as (sb & Eb & Ob & Tb & Nb).
    rewrite Ea, Eb. unfold same_outcome.
    repeat (split; [reflexivity || congruence|]).
    exists (strftime (now st)), dir, (Build_wav (map pcm_16 audio) 22050).
    repeat split; assumption.
Qed.

(** So is, on the server as it starts, the request of the documentation
    ("hi", accent 0, style 0): 500 on both routes, and no artifact. *)
Lemma documented_request_answers_500 ep (boot : state) :
  let st := snd (startup_event str_exn boot) in
  fst (run ep namaste st)
    = Raise (HTTPException 500 (str_exn (RuntimeError (SizeMismatch 512 256))))
  /\ outputs (snd (run ep namaste st)) = outputs boot.
Proof.
  intros st.
  pose proof valid_namaste as Hv.
  assert (Hm : model st = Some startup_model) by reflexivity.
  assert (Hl : model_loaded st = true) by reflexivity.
  rewrite post_unfold, Hl, post_try_startup_model by assumption.
  split; reflexivity.
Qed.

End HandlerFacts.

(** *** The theorems at work *)

Lemma not_loaded_503_witness :
  model_loaded demo_boot = false
  /\ demo_post Get_Inference namaste demo_boot
     = (Raise (HTTPException 503 (str "Model not loaded")), demo_boot).
Proof.
  split; [reflexivity|].
  apply (not_loaded_503 ascii_db demo_str_exn Z N N demo_torch_next demo_randn_next demo_pcm_16).
  reflexivity.
Defined.

Lemma exception_becomes_500_witness :
  model_loaded demo_started = true
  /\ fst (demo_post_try Synthesize namaste demo_started)
     = Raise (RuntimeError (SizeMismatch 512 256))
  /\ fst (demo_post Synthesize namaste demo_started)
     = Raise (HTTPException 500 (str "RuntimeError")).
Proof.
  split; [reflexivity|]. split; [vm_compute; reflexivity|].
  unfold demo_post, demo_post_try.
  rewrite (exception_becomes_500 ascii_db demo_str_exn Z N N
             demo_torch_next demo_randn_next demo_pcm_16 Synthesize namaste demo_started
             (snd (post_try ascii_db demo_torch_next demo_randn_next demo_pcm_16
                     Synthesize namaste demo_started))
             (RuntimeError (SizeMismatch 512 256))).
  - reflexivity.
  - reflexivity.
  - vm_compute. reflexivity.
Defined.

(** The request of the tests: text "Hello" in the language "xx". *)
Lemma unsupported_language_answers_500_witness :
  let request := {| TTSRequest.text := str "Hello"; TTSRequest.language := str "xx";
                    TTSRequest.accent_id := 0; TTSRequest.style_id := 0;
                    TTSRequest.speaker_id := None |} in
  model_loaded demo_started = true
  /\ (str "xx" ∉ LANGUAGES.*1)
  /\ fst (demo_post Get_Inference request demo_started)
     = Raise (HTTPException 500 (str "400: Language xx not supported")).
Proof.
  intros request.
  assert (H : str "xx" ∉ LANGUAGES.*1).
  { apply not_in_table. reflexivity. }
  split; [reflexivity|]. split; [exact H|].
  exact (unsupported_language_answers_500 ascii_db demo_str_exn Z N N
           demo_torch_next demo_randn_next demo_pcm_16 Get_Inference request demo_started
           eq_refl H).
Defined.

Lemma out_of_range_id_answers_500_witness :
  let request := {| TTSRequest.text := str "Hello"; TTSRequest.language := str "hi";
                    TTSRequest.accent_id := 7; TTSRequest.style_id := 0;
                    TTSRequest.speaker_id := None |} in
  model_loaded demo_started = true
  /\ (7 < 0 \/ 5 <= 7 \/ 0 < 0 \/ 3 <= 0)%Z
  /\ exists detail,
       fst (demo_post Synthesize request demo_started)
       = Raise (HTTPException 500 (demo_str_exn (HTTPException 400 detail)))
       /\ detail ∈ [ str "Language hi not supported";
                     str "accent_id must be 0-4"; str "style_id must be 0-2" ].
Proof.
  intros request.
  assert (H : (7 < 0 \/ 5 <= 7 \/ 0 < 0 \/ 3 <= 0)%Z) by (right; left; lia).
  split; [reflexivity|]. split; [exact H|].
  exact (out_of_range_id_answers_500 ascii_db demo_str_exn Z N N
           demo_torch_next demo_randn_next demo_pcm_16 Synthesize request demo_started
           eq_refl H).
Defined.

(** On a model whose widths agree a valid request completes, on both routes:
    the answer and the artifact are there. *)
Example agreeing_widths_complete :
  forall ep,
    match demo_post ep namaste demo_agreeing with
    | (Ok resp, st') =>
        TTSResponse.duration resp = Some (QArith_base.Qmake 38400 22050)
        /\ TTSResponse.language resp = str "hi"
        /\ TTSResponse.audio_url resp
           = Some (str "/audio/" ++ artifact ep (str "20240309_070501"))
        /\ ((fun w => Z.of_nat (length (samples w)))
              <$> (outputs st' ≫= (.!! artifact ep (str "20240309_070501"))))
           = Some 38400%Z
    | (Raise _, _) => False
    end.
Proof. intros ep. destruct ep; vm_compute; repeat split. Qed.

(** Retrieval, three ways: a name the directory does not hold, the artifact
    a completed request has just written, and the directory itself. *)
Example get_audio_unknown :
  fst (get_audio demo_os_stat (str "nope.wav") demo_started)
  = Raise (HTTPException 404 (str "Audio file not found")).
Proof. vm_compute. reflexivity. Qed.

Example get_audio_written :
  let st := snd (demo_post Synthesize namaste demo_agreeing) in
  fst (get_audio demo_os_stat (str "tts_20240309_070501.wav") st)
  = Ok {| path := {| rooted := false;
                     parts := [str "outputs"; str "tts_20240309_070501.wav"] |};
          media_type := str "audio/wav" |}.
Proof. vm_compute. reflexivity. Qed.

(** The started server beside an output directory that is there, and
    empty. *)
Lemma get_audio_answers_on_directory_witness :
  let st := set_outputs (Some ∅) demo_started in
  (str "." = str "." \/ str "." = str "..")
  /\ is_Some (outputs st)
  /\ exists r, get_audio demo_os_stat (str ".") st = (Ok r, st)
               /\ media_type r = str "audio/wav"
               /\ stat demo_os_stat (path r) st = (Ok (Some Directory), st)
               /\ body r st = None.
Proof.
  intros st.
  assert (H1 : str "." = str "." \/ str "." = str "..") by now left.
  assert (H2 : is_Some (outputs st)) by now eexists.
  split; [exact H1|]. split; [exact H2|].
  exact (get_audio_answers_on_directory N N demo_os_stat (str ".") st H1 H2).
Defined.

Example get_audio_dot :
  let st := snd (demo_post Synthesize namaste demo_agreeing) in
  fst (get_audio demo_os_stat (str ".") st)
  = Ok {| path := {| rooted := false; parts := [str "outputs"] |};
          media_type := str "audio/wav" |}.
Proof. vm_compute. reflexivity. Qed.

(** ** More on the normalizer *)

Section NormalizerMore.
Variable db : UnicodeDB.

Lemma split_all_space s : forallb (isspace db) s = true -> split db s = [].
Proof.
  induction s as [|c s IH]; [reflexivity|].
  cbn [forallb]. intros [Hc Hs]%andb_true_iff.
  rewrite split_cons_space by assumption. now apply IH.
Qed.

(** Text that is empty or all whitespace normalizes to the empty string,
    whatever the Unicode tables. *)
Theorem normalize_whitespace_only s language :
  forallb (isspace db) s = true -> normalize db s language = [].
Proof. intros H. unfold normalize. now rewrite split_all_space. Qed.

Lemma filter_Forall (f : N -> bool) (P : N -> Prop) s :
  Forall P s -> Forall (fun c => P c /\ f c = true) (List.filter f s).
Proof.
  induction 1 as [|c s Hc Hs IH]; [constructor|].
  simpl. destruct (f c) eqn:E; [constructor; auto | assumption].
Qed.

Lemma filter_length (f : N -> bool) s :
  (length (List.filter f s) <= length s)%nat.
Proof. induction s as [|c s IH]; simpl; [lia|]. destruct (f c); simpl; lia. Qed.

Lemma join_split_Forall (P : N -> Prop) s :
  P space -> Forall P s -> Forall P (join [space] (split db s)).
Proof.
  intros Hsp H. apply join_Forall; [assumption|].
  apply (split_Forall db _ s) in H.
  eapply Forall_impl; [exact H|].
  intros w [_ Hw]. eapply Forall_impl; [exact Hw|]. now intros c [? _].
Qed.

(** A fact checked on each of the 128 ASCII characters holds of all. *)
Lemma ascii_forall (P : N -> bool) :
  forallb P (map N.of_nat (seq 0 128)) = true ->
  forall c, is_ascii c = true -> P c = true.
Proof.
  intros H c Hc. apply N.ltb_lt in Hc.
  rewrite forallb_forall in H. apply H.
  apply in_map_iff. exists (N.to_nat c). split; [apply N2Nat.id|].
  apply in_seq. lia.
Qed.

Lemma kept_lower_normal c :
  is_ascii c = true -> ascii_isalnum c || in_punct c = true ->
  normal_char (ascii_lower c) = true.
Proof.
  intros Ha Hk.
  pose proof (ascii_forall
                (fun c => implb (ascii_isalnum c || in_punct c)
                                (normal_char (ascii_lower c)))
                eq_refl c Ha) as H.
  cbv beta in H. now rewrite Hk in H.
Qed.

Lemma normal_char_facts c :
  normal_char c = true ->
  is_ascii c = true /\ ascii_lower c = c
  /\ ascii_isalnum c || in_punct c = true
  /\ is_ascii c && (ascii_isspace c || ascii_isalnum c
                    || existsb (N.eqb c) punctuation) = true.
Proof.
  intros H.
  assert (Ha : is_ascii c = true).
  { unfold normal_char in H. cbn [existsb punctuation] in H. apply N.ltb_lt.
    repeat (apply orb_true_iff in H; destruct H as [H|H]);
      try discriminate;
      try (apply N.eqb_eq in H; unfold space in H; lia);
      apply andb_true_iff in H as [_ H]; apply N.leb_le in H; lia. }
  pose proof (ascii_forall
                (fun c => implb (normal_char c)
                            ((ascii_lower c =? c)
                             && (ascii_isalnum c || in_punct c)
                             && (ascii_isspace c || ascii_isalnum c
                                 || existsb (N.eqb c) punctuation)))
                eq_refl c Ha) as F.
  cbv beta in F. rewrite H in F. cbn [implb] in F.
  apply andb_true_iff in F as [[F1 F2]%andb_true_iff F3].
  apply N.eqb_eq in F1. rewrite Ha. repeat split; assumption.
Qed.

Lemma normalize_ascii s language :
  Forall (fun c => is_ascii c = true) s ->
  normalize db s language =
  map ascii_lower
      (List.filter (fun c => isalnum db c || in_punct c)
                   (join [space] (split db s))).
Proof.
  intros H. unfold normalize. apply lower_ascii.
  apply (join_split_Forall (fun c => is_ascii c = true) s eq_refl) in H.
  apply (filter_Forall (fun c => isalnum db c || in_punct c)) in H.
  eapply Forall_impl; [exact H|]. now intros c [? _].
Qed.

Lemma normalize_ascii_normal s language :
  Forall (fun c => is_ascii c = true) s ->
  Forall (fun c => normal_char c = true) (normalize db s language).
Proof.
  intros H. rewrite normalize_ascii by assumption.
  apply Forall_map.
  apply (join_split_Forall (fun c => is_ascii c = true) s eq_refl) in H.
  apply (filter_Forall (fun c => isalnum db c || in_punct c)) in H.
  eapply Forall_impl; [exact H|].
  intros c [Ha Hk]. apply kept_lower_normal; [assumption|].
  unfold isalnum in Hk. now rewrite Ha in Hk.
Qed.

(** On ASCII text the result holds nothing but spaces, digits, small
    letters and the punctuation . , ! ? ; : (no capital, no tab, no line
    break). *)
Theorem normalize_ascii_alphabet s language :
  Forall (fun c => is_ascii c = true) s ->
  Forall (fun c => normal_char c = true) (normalize db s language).
Proof. apply normalize_ascii_normal. Qed.

Lemma collapse_length s :
  (length (collapse_whitespace db s) <= length s)%nat.
Proof.
  induction s as [|c s IH]; [reflexivity|].
  simpl. destruct (isspace db c).
  - destruct s as [|d s']; [simpl; lia|].
    destruct (isspace db d); simpl in *; lia.
  - simpl. lia.
Qed.

Lemma lstrip_length s : (length (lstrip db s) <= length s)%nat.
Proof.
  induction s as [|c s IH]; [reflexivity|].
  simpl. destruct (isspace db c); simpl; lia.
Qed.

Lemma rstrip_length s : (length (rstrip db s) <= length s)%nat.
Proof.
  induction s as [|c s IH]; [reflexivity|].
  simpl. destruct (rstrip db s); [destruct (isspace db c)|]; simpl in *; lia.
Qed.

Lemma join_split_length s :
  (length (join [space] (split db s)) <= length s)%nat.
Proof.
  rewrite join_split. unfold strip.
  pose proof (collapse_length (rstrip db (lstrip db s))).
  pose proof (rstrip_length (lstrip db s)).
  pose proof (lstrip_length s). lia.
Qed.

(** On ASCII text the result is never longer than the text. *)
Theorem normalize_ascii_length s language :
  Forall (fun c => is_ascii c = true) s ->
  (length (normalize db s language) <= length s)%nat.
Proof.
  intros H. rewrite normalize_ascii by assumption. rewrite length_map.
  pose proof (filter_length (fun c => isalnum db c || in_punct c)
                (join [space] (split db s))).
  pose proof (join_split_length s). lia.
Qed.

Lemma map_lower_normal s :
  Forall (fun c => normal_char c = true) s -> map ascii_lower s = s.
Proof.
  induction 1 as [|c s Hc Hs IH]; [reflexivity|].
  simpl. rewrite IH. now destruct (normal_char_facts c Hc) as (_ & -> & _).
Qed.

(** On text that is already in the alphabet of normalized text, the pass is
    the join of the words. *)
Lemma normalize_normal s language :
  Forall (fun c => normal_char c = true) s ->
  normalize db s language = join [space] (split db s).
Proof.
  intros H.
  assert (Hp : plain s).
  { eapply Forall_impl; [exact H|]. intros c Hc.
    now destruct (normal_char_facts c Hc) as (_ & _ & _ & ?). }
  rewrite (normalize_plain db s language Hp).
  apply map_lower_normal. now apply join_split_Forall.
Qed.

(** What a second pass does to ASCII text: it takes the spaces off both
    ends of the first result and collapses the runs of spaces in it, and
    nothing else. *)
Theorem normalize_second_pass s language :
  Forall (fun c => is_ascii c = true) s ->
  normalize db (normalize db s language) language
  = collapse_whitespace db (strip db (normalize db s language)).
Proof.
  intros H. rewrite normalize_normal by now apply normalize_ascii_normal.
  apply join_split.
Qed.

(** On ASCII text two passes reach a fixed point: a third changes nothing. *)
Theorem normalize_third_pass s language :
  Forall (fun c => is_ascii c = true) s ->
  normalize db (normalize db (normalize db s language) language) language
  = normalize db (normalize db s language) language.
Proof.
  intros H.
  pose proof (normalize_ascii_normal s language H) as Ht.
  rewrite (normalize_normal (normalize db s language)) by assumption.
  rewrite normalize_normal by (now apply join_split_Forall).
  now rewrite split_join_split.
Qed.

(** *** When a second pass changes nothing *)
















End NormalizerMore.

Lemma normalize_whitespace_only_witness :
  forallb (isspace ascii_db) [32; 9; 10; 32] = true
  /\ normalize ascii_db [32; 9; 10; 32] (str "hi") = [].
Proof.
  split; [reflexivity|].
  apply (normalize_whitespace_only ascii_db). reflexivity.
Defined.

Lemma normalize_ascii_alphabet_witness :
  Forall (fun c => is_ascii c = true) (str "Hi -  THERE_9!")
  /\ Forall (fun c => normal_char c = true)
            (normalize ascii_db (str "Hi -  THERE_9!") (str "hi")).
Proof.
  assert (H : Forall (fun c => is_ascii c = true) (str "Hi -  THERE_9!"))
    by repeat constructor.
  split; [exact H|].
  exact (normalize_ascii_alphabet ascii_db _ (str "hi") H).
Defined.

Lemma normalize_ascii_length_witness :
  Forall (fun c => is_ascii c = true) (str "Hi -  THERE_9!")
  /\ (length (normalize ascii_db (str "Hi -  THERE_9!") (str "hi"))
      <= length (str "Hi -  THERE_9!"))%nat.
Proof.
  assert (H : Forall (fun c => is_ascii c = true) (str "Hi -  THERE_9!"))
    by repeat constructor.
  split; [exact H|].
  exact (normalize_ascii_length ascii_db _ (str "hi") H).
Defined.

Lemma normalize_second_pass_witness :
  Forall (fun c => is_ascii c = true) (str "- a - b")
  /\ normalize ascii_db (str "- a - b") (str "hi") = str " a  b"
  /\ normalize ascii_db (normalize ascii_db (str "- a - b") (str "hi")) (str "hi")
     = collapse_whitespace ascii_db
         (strip ascii_db (normalize ascii_db (str "- a - b") (str "hi"))).
Proof.
  assert (H : Forall (fun c => is_ascii c = true) (str "- a - b"))
    by repeat constructor.
  split; [exact H|]. split; [reflexivity|].
  exact (normalize_second_pass ascii_db _ (str "hi") H).
Defined.

Lemma normalize_third_pass_witness :
  Forall (fun c => is_ascii c = true) (str "- a - b")
  /\ normalize ascii_db
       (normalize ascii_db (normalize ascii_db (str "- a - b") (str "hi")) (str "hi"))
       (str "hi")
     = normalize ascii_db (normalize ascii_db (str "- a - b") (str "hi")) (str "hi").
Proof.
  assert (H : Forall (fun c => is_ascii c = true) (str "- a - b"))
    by repeat constructor.
  split; [exact H|].
  exact (normalize_third_pass ascii_db _ (str "hi") H).
Defined.


(** ** More on the model classes *)

Lemma bind_Ok {A B : Type} (a : A) (k : A -> result B) : Ok a ≫= k = k a.
Proof. reflexivity. Qed.

Lemma bind_Raise {A B : Type} (e : exn) (k : A -> result B) :
  Raise e ≫= k = Raise e.
Proof. reflexivity. Qed.

Lemma Embedding_forward_in_vocab n dim x :
  Embedding.forward (Embedding.Build_t n dim) x
  = if in_vocab n x then Ok (lshape x ++ [dim]) else Raise IndexError.
Proof. reflexivity. Qed.

Lemma Linear_forward_3d_ok n_in n_out b t :
  Linear.forward (Linear.Build_t n_in n_out) [b; t; n_in] = Ok [b; t; n_out].
Proof.
  unfold Linear.forward.
  cbn [last removelast app Linear.in_features Linear.out_features].
  now rewrite N.eqb_refl.
Qed.

Lemma LSTM_forward_3d_run n_in hidden layers bi b t :
  LSTM.forward (LSTM.Build_t n_in hidden layers true bi) [b; t; n_in]
  = if t =? 0 then Raise (RuntimeError EmptySequence)
    else Ok [b; t; (if bi then 2 else 1) * hidden].
Proof.
  unfold LSTM.forward, LSTM.out_features.
  cbn [LSTM.input_size LSTM.bidirectional LSTM.hidden_size LSTM.batch_first].
  now rewrite N.eqb_refl.
Qed.

Lemma LSTM_init_run n_in hidden bf bi :
  LSTM.init n_in hidden 2 bf bi
  = if hidden =? 0 then Raise ValueError
    else Ok (LSTM.Build_t n_in hidden 2 bf bi).
Proof. unfold LSTM.init. now destruct (hidden =? 0). Qed.

Lemma encoder_init_run vocab_size embedding_dim hidden_dim :
  MultilingualTTSEncoder.init vocab_size embedding_dim hidden_dim
  = if hidden_dim =? 0 then Raise ValueError
    else Ok (MultilingualTTSEncoder.Build_t
               (Embedding.Build_t vocab_size embedding_dim)
               (LSTM.Build_t embedding_dim hidden_dim 2 true true)
               (Linear.Build_t (hidden_dim * 2) hidden_dim)).
Proof.
  unfold MultilingualTTSEncoder.init. rewrite LSTM_init_run.
  now destruct (hidden_dim =? 0).
Qed.

Lemma encoder_built_run vocab_size embedding_dim hidden_dim x b t :
  lshape x = [b; t] ->
  MultilingualTTSEncoder.forward
    (MultilingualTTSEncoder.Build_t
       (Embedding.Build_t vocab_size embedding_dim)
       (LSTM.Build_t embedding_dim hidden_dim 2 true true)
       (Linear.Build_t (hidden_dim * 2) hidden_dim)) x
  = if negb (in_vocab vocab_size x) then Raise IndexError
    else if t =? 0 then Raise (RuntimeError EmptySequence)
    else Ok [b; t; hidden_dim].
Proof.
  intros Hx. unfold MultilingualTTSEncoder.forward.
  cbn [MultilingualTTSEncoder.embedding MultilingualTTSEncoder.lstm
       MultilingualTTSEncoder.linear].
  rewrite Embedding_forward_in_vocab, Hx.
  destruct (in_vocab vocab_size x); [|reflexivity].
  cbn [app negb]. rewrite bind_Ok, LSTM_forward_3d_run.
  destruct (t =? 0); [reflexivity|]. rewrite bind_Ok.
  rewrite (N.mul_comm 2 hidden_dim), Linear_forward_3d_ok. reflexivity.
Qed.

(** The encoder: its constructor refuses a hidden state of no width; once
    built, it takes a batch of token ids to the hidden states of the same
    batch and length, raising IndexError as soon as one id is outside the
    vocabulary and, failing that, RuntimeError on sequences of no length. *)
Theorem encoder_forward_init vocab_size embedding_dim hidden_dim x b t :
  lshape x = [b; t] ->
  MultilingualTTSEncoder.init vocab_size embedding_dim hidden_dim
    ≫= (fun m => MultilingualTTSEncoder.forward m x)
  = if hidden_dim =? 0 then Raise ValueError
    else if negb (in_vocab vocab_size x) then Raise IndexError
    else if t =? 0 then Raise (RuntimeError EmptySequence)
    else Ok [b; t; hidden_dim].
Proof.
  intros Hx. rewrite encoder_init_run.
  destruct (hidden_dim =? 0); [reflexivity|].
  rewrite bind_Ok. now apply encoder_built_run.
Qed.

Lemma encoder_forward_init_witness :
  let x := {| lshape := [2; 3]; ldata := [0; 7; 499; 1; 2; 3]%Z |} in
  let x' := {| lshape := [2; 3]; ldata := [0; 7; 500; 1; 2; 3]%Z |} in
  let empty := {| lshape := [2; 0]; ldata := [] |} in
  lshape x = [2; 3] /\ lshape x' = [2; 3] /\ lshape empty = [2; 0]
  /\ MultilingualTTSEncoder.init 500 256 512
       ≫= (fun m => MultilingualTTSEncoder.forward m x)
     = Ok [2; 3; 512]
  /\ MultilingualTTSEncoder.init 500 256 512
       ≫= (fun m => MultilingualTTSEncoder.forward m x')
     = Raise IndexError
  /\ MultilingualTTSEncoder.init 500 256 512
       ≫= (fun m => MultilingualTTSEncoder.forward m empty)
     = Raise (RuntimeError EmptySequence)
  /\ MultilingualTTSEncoder.init 500 256 0
       ≫= (fun m => MultilingualTTSEncoder.forward m x)
     = Raise ValueError.
Proof.
  intros x x' empty. do 3 (split; [reflexivity|]). split; [|split; [|split]].
  - exact (encoder_forward_init 500 256 512 x 2 3 eq_refl).
  - exact (encoder_forward_init 500 256 512 x' 2 3 eq_refl).
  - exact (encoder_forward_init 500 256 512 empty 2 0 eq_refl).
  - exact (encoder_forward_init 500 256 0 x 2 3 eq_refl).
Defined.

Lemma transfer_init_run hidden_dim num_accents num_styles
    b t accent_id style_id :
  lshape accent_id = [b] ->
  lshape style_id = [b] ->
  AccentStyleTransferModule.forward
    (AccentStyleTransferModule.init hidden_dim num_accents num_styles)
    [b; t; hidden_dim] accent_id style_id
  = if in_vocab num_accents accent_id && in_vocab num_styles style_id
    then Ok [b; t; hidden_dim] else Raise IndexError.
Proof.
  intros Ha Hs.
  assert (Hexp : expand [None; Some t; None] [b; 1; hidden_dim]
                 = Ok [b; t; hidden_dim]).
  { cbn [expand]. rewrite N.eqb_refl, orb_true_r. reflexivity. }
  assert (Hcat : cat_last [[b; t; hidden_dim]; [b; t; hidden_dim];
                           [b; t; hidden_dim]]
                 = Ok [b; t; hidden_dim * 3]).
  { unfold cat_last. cbn [forallb removelast].
    rewrite bool_decide_eq_true_2 by reflexivity.
    rewrite bool_decide_eq_false_2 by discriminate.
    cbn [andb negb map fold_right List.last app].
    do 3 f_equal. f_equal. lia. }
  unfold AccentStyleTransferModule.forward, AccentStyleTransferModule.init,
    AccentStyleTransferModule.fusion.
  cbn [AccentStyleTransferModule.accent_embedding
       AccentStyleTransferModule.style_embedding
       AccentStyleTransferModule.fusion_0 AccentStyleTransferModule.fusion_2].
  rewrite !Embedding_forward_in_vocab, Ha, Hs.
  destruct (in_vocab num_accents accent_id); [|reflexivity].
  cbn [app andb]. rewrite bind_Ok; cbv beta.
  change (unsqueeze 1 [b; hidden_dim]) with (Ok (A:=shape) [b; 1; hidden_dim]).
  rewrite bind_Ok; cbv beta. rewrite Hexp, bind_Ok; cbv beta.
  destruct (in_vocab num_styles style_id); [|reflexivity].
  rewrite bind_Ok; cbv beta.
  change (unsqueeze 1 [b; hidden_dim]) with (Ok (A:=shape) [b; 1; hidden_dim]).
  rewrite bind_Ok; cbv beta. rewrite Hexp, bind_Ok; cbv beta.
  match goal with
  | |- ?c ≫= _ = _ =>
      replace c with (Ok (A:=shape) [b; t; hidden_dim * 3])
        by (symmetry; exact Hcat)
  end.
  rewrite bind_Ok; cbv beta.
  rewrite Linear_forward_3d_ok, bind_Ok; cbv beta. apply Linear_forward_3d_ok.
Qed.

(** The transfer module built by its constructor keeps the shape of the
    encoder output when it is given one accent id and one style id per
    batch entry, and raises IndexError when an id is outside the accents or
    the styles. *)
Theorem transfer_forward_init hidden_dim num_accents num_styles
    b t accent_id style_id :
  lshape accent_id = [b] ->
  lshape style_id = [b] ->
  AccentStyleTransferModule.forward
    (AccentStyleTransferModule.init hidden_dim num_accents num_styles)
    [b; t; hidden_dim] accent_id style_id
  = if in_vocab num_accents accent_id && in_vocab num_styles style_id
    then Ok [b; t; hidden_dim] else Raise IndexError.
Proof. apply transfer_init_run. Qed.

Lemma transfer_forward_init_witness :
  lshape (tensor [4%Z]) = [1] /\ lshape (tensor [2%Z]) = [1]
  /\ AccentStyleTransferModule.forward (AccentStyleTransferModule.init 512 5 3)
       [1; 150; 512] (tensor [4%Z]) (tensor [2%Z]) = Ok [1; 150; 512]
  /\ AccentStyleTransferModule.forward (AccentStyleTransferModule.init 512 5 3)
       [1; 150; 512] (tensor [5%Z]) (tensor [2%Z]) = Raise IndexError.
Proof.
  split; [reflexivity|]. split; [reflexivity|]. split.
  - exact (transfer_forward_init 512 5 3 1 150 (tensor [4%Z]) (tensor [2%Z])
             eq_refl eq_refl).
  - exact (transfer_forward_init 512 5 3 1 150 (tensor [5%Z]) (tensor [2%Z])
             eq_refl eq_refl).
Defined.

Lemma add_row t h e :
  add [1; t; h] [1; 1; e]
  = if h =? e then Ok [1; t; h]
    else if h =? 1 then Ok [1; t; e]
    else if e =? 1 then Ok [1; t; h]
    else Raise (RuntimeError (SizeMismatch h e)).
Proof.
  assert (Hb : broadcast_rev [t; 1] [1; 1] = Ok [t; 1]).
  { cbn [broadcast_rev]. destruct (N.eqb_spec t 1) as [->|?]; reflexivity. }
  unfold add.
  change (reverse [1; t; h]) with [h; t; 1].
  change (reverse [1; 1; e]) with [e; 1; 1].
  change (broadcast_rev [h; t; 1] [e; 1; 1])
    with (if h =? e then cons h <$> broadcast_rev [t; 1] [1; 1]
          else if h =? 1 then cons e <$> broadcast_rev [t; 1] [1; 1]
          else if e =? 1 then cons h <$> broadcast_rev [t; 1] [1; 1]
          else Raise (RuntimeError (SizeMismatch h e))).
  rewrite Hb.
  destruct (h =? e); [reflexivity|].
  destruct (h =? 1); [reflexivity|].
  destruct (e =? 1); reflexivity.
Qed.

Lemma decoder_init_run hidden_dim mel_bins :
  MultilingualTTSDecoder.init hidden_dim mel_bins
  = if hidden_dim =? 0 then Raise ValueError
    else Ok (MultilingualTTSDecoder.Build_t
               (LSTM.Build_t hidden_dim hidden_dim 2 true false)
               (Linear.Build_t hidden_dim mel_bins)).
Proof.
  unfold MultilingualTTSDecoder.init. rewrite LSTM_init_run.
  now destruct (hidden_dim =? 0).
Qed.

Lemma decoder_built_run hidden_dim mel_bins b t :
  t <> 0 ->
  MultilingualTTSDecoder.forward
    (MultilingualTTSDecoder.Build_t
       (LSTM.Build_t hidden_dim hidden_dim 2 true false)
       (Linear.Build_t hidden_dim mel_bins)) [b; t; hidden_dim]
  = Ok [b; t; mel_bins].
Proof.
  intros Ht. unfold MultilingualTTSDecoder.forward.
  cbn [MultilingualTTSDecoder.lstm MultilingualTTSDecoder.linear].
  rewrite LSTM_forward_3d_run.
  destruct (N.eqb_spec t 0); [contradiction|].
  rewrite bind_Ok; cbv beta.
  rewrite N.mul_1_l. apply Linear_forward_3d_ok.
Qed.

Lemma model_init_run vocab_size num_languages num_accents num_styles
    embedding_dim hidden_dim mel_bins :
  MultilingualTTS.init vocab_size num_languages num_accents num_styles
    embedding_dim hidden_dim mel_bins
  = if hidden_dim =? 0 then Raise ValueError
    else Ok (MultilingualTTS.Build_t
               (Embedding.Build_t num_languages embedding_dim)
               (MultilingualTTSEncoder.Build_t
                  (Embedding.Build_t vocab_size embedding_dim)
                  (LSTM.Build_t embedding_dim hidden_dim 2 true true)
                  (Linear.Build_t (hidden_dim * 2) hidden_dim))
               (AccentStyleTransferModule.init hidden_dim num_accents num_styles)
               (MultilingualTTSDecoder.Build_t
                  (LSTM.Build_t hidden_dim hidden_dim 2 true false)
                  (Linear.Build_t hidden_dim mel_bins))).
Proof.
  unfold MultilingualTTS.init. rewrite encoder_init_run, decoder_init_run.
  now destruct (hidden_dim =? 0).
Qed.

(** The whole network.  Its constructor refuses a hidden state of no width.
    Once built, on one text of [t] token ids with one language, accent and
    style id, all within their tables: a text of no length stops the
    encoder with a RuntimeError; otherwise the forward pass returns a
    spectrogram of [t] frames by [mel_bins] exactly when the embedding is
    as wide as the hidden state, or 1 wide, and with any other widths it
    raises a RuntimeError. *)
Theorem forward_init vocab_size num_languages num_accents num_styles
    embedding_dim hidden_dim mel_bins t text_ids language_id accent_id style_id :
  lshape text_ids = [1; t] -> lshape language_id = [1] ->
  lshape accent_id = [1] -> lshape style_id = [1] ->
  in_vocab vocab_size text_ids = true ->
  in_vocab num_languages language_id = true ->
  in_vocab num_accents accent_id = true ->
  in_vocab num_styles style_id = true ->
  let run :=
    MultilingualTTS.init vocab_size num_languages num_accents num_styles
      embedding_dim hidden_dim mel_bins
    ≫= (fun m =>
          MultilingualTTS.forward m text_ids language_id accent_id style_id) in
  if hidden_dim =? 0 then run = Raise ValueError
  else if t =? 0 then run = Raise (RuntimeError EmptySequence)
  else if (embedding_dim =? hidden_dim) || (embedding_dim =? 1)
  then run = Ok [1; t; mel_bins]
  else exists why, run = Raise (RuntimeError why).
Proof.
  intros Hx Hl Ha Hs Vx Vl Va Vs run. subst run.
  rewrite model_init_run.
  destruct (hidden_dim =? 0); [reflexivity|].
  rewrite bind_Ok. unfold MultilingualTTS.forward.
  cbn [MultilingualTTS.encoder MultilingualTTS.language_embedding
       MultilingualTTS.transfer_module MultilingualTTS.decoder].
  rewrite (encoder_built_run _ _ _ _ 1 t Hx), Vx. cbn [negb].
  destruct (N.eqb_spec t 0) as [Ht|Ht]; [reflexivity|].
  rewrite bind_Ok; cbv beta.
  rewrite Embedding_forward_in_vocab, Vl, Hl, bind_Ok; cbv beta.
  change (unsqueeze 1 ([1] ++ [embedding_dim]))
    with (Ok (A:=shape) [1; 1; embedding_dim]).
  rewrite bind_Ok; cbv beta. rewrite add_row.
  assert (Hgood : Ok (A:=shape) [1; t; hidden_dim]
                  ≫= (fun encoder_output =>
                        AccentStyleTransferModule.forward
                          (AccentStyleTransferModule.init hidden_dim
                             num_accents num_styles)
                          encoder_output accent_id style_id
                        ≫= fun transferred =>
                             MultilingualTTSDecoder.forward
                               (MultilingualTTSDecoder.Build_t
                                  (LSTM.Build_t hidden_dim hidden_dim 2 true false)
                                  (Linear.Build_t hidden_dim mel_bins))
                               transferred)
                  = Ok [1; t; mel_bins]).
  { rewrite bind_Ok; cbv beta.
    rewrite (transfer_init_run _ _ _ 1 t _ _ Ha Hs), Va, Vs. cbn [andb].
    rewrite bind_Ok; cbv beta. now apply decoder_built_run. }
  rewrite (N.eqb_sym embedding_dim hidden_dim).
  destruct (N.eqb_spec hidden_dim embedding_dim) as [E|E]; [exact Hgood|].
  cbn [orb].
  destruct (N.eqb_spec embedding_dim 1) as [E1|E1].
  - destruct (N.eqb_spec hidden_dim 1) as [H1|H1]; [congruence|exact Hgood].
  - destruct (N.eqb_spec hidden_dim 1) as [H1|H1]; [|now eexists].
    subst hidden_dim. rewrite bind_Ok; cbv beta.
    unfold AccentStyleTransferModule.forward, AccentStyleTransferModule.init,
      AccentStyleTransferModule.fusion.
    cbn [AccentStyleTransferModule.accent_embedding
         AccentStyleTransferModule.style_embedding
         AccentStyleTransferModule.fusion_0 AccentStyleTransferModule.fusion_2].
    rewrite !Embedding_forward_in_vocab, Va, Vs, Ha, Hs.
    rewrite bind_Ok; cbv beta.
    change (unsqueeze 1 ([1] ++ [1])) with (Ok (A:=shape) [1; 1; 1]).
    rewrite bind_Ok; cbv beta.
    assert (Hexp : expand [None; Some t; None] [1; 1; 1] = Ok [1; t; 1]).
    { cbn [expand]. rewrite N.eqb_refl, orb_true_r. reflexivity. }
    rewrite Hexp. rewrite bind_Ok; cbv beta. rewrite bind_Ok; cbv beta.
    change (unsqueeze 1 ([1] ++ [1])) with (Ok (A:=shape) [1; 1; 1]).
    rewrite bind_Ok; cbv beta. rewrite Hexp. rewrite bind_Ok; cbv beta.
    assert (Hcat : cat_last [[1; t; embedding_dim]; [1; t; 1]; [1; t; 1]]
                   = Ok [1; t; embedding_dim + 2]).
    { unfold cat_last. cbn [forallb removelast].
      rewrite bool_decide_eq_true_2 by reflexivity.
      rewrite bool_decide_eq_false_2 by discriminate.
      cbn [andb negb map fold_right List.last app].
      apply (f_equal (fun z => Ok (A:=shape) [1; t; z])). lia. }
    match goal with
    | |- exists why, (?c ≫= _) ≫= _ = _ =>
        replace c with (Ok (A:=shape) [1; t; embedding_dim + 2])
          by (symmetry; exact Hcat)
    end.
    rewrite bind_Ok; cbv beta.
    assert (Hlin : Linear.forward (Linear.Build_t (1 * 3) 1)
                     [1; t; embedding_dim + 2]
                   = Raise (RuntimeError (MatMul (1 * 3) (embedding_dim + 2)))).
    { unfold Linear.forward.
      cbn [last removelast app Linear.in_features Linear.out_features].
      destruct (N.eqb_spec (embedding_dim + 2) (1 * 3)) as [E3|E3]; [lia|].
      reflexivity. }
    rewrite Hlin, !bind_Raise. now eexists.
Qed.

Lemma forward_init_witness :
  let x := {| lshape := [1; 4]; ldata := [3; 1; 4; 1]%Z |} in
  let empty := {| lshape := [1; 0]; ldata := [] |} in
  let ids := (tensor [10%Z], tensor [4%Z], tensor [2%Z]) in
  lshape x = [1; 4] /\ in_vocab 500 x = true
  /\ lshape empty = [1; 0] /\ in_vocab 500 empty = true
  /\ MultilingualTTS.init 500 11 5 3 512 512 80
       ≫= (fun m => MultilingualTTS.forward m x (tensor [10%Z]) (tensor [4%Z])
                      (tensor [2%Z]))
     = Ok [1; 4; 80]
  /\ (exists why,
        MultilingualTTS.init 500 11 5 3 256 512 80
          ≫= (fun m => MultilingualTTS.forward m x (tensor [10%Z]) (tensor [4%Z])
                         (tensor [2%Z]))
        = Raise (RuntimeError why))
  /\ MultilingualTTS.init 500 11 5 3 512 512 80
       ≫= (fun m => MultilingualTTS.forward m empty (tensor [10%Z])
                      (tensor [4%Z]) (tensor [2%Z]))
     = Raise (RuntimeError EmptySequence)
  /\ MultilingualTTS.init 500 11 5 3 512 0 80
       ≫= (fun m => MultilingualTTS.forward m x (tensor [10%Z]) (tensor [4%Z])
                      (tensor [2%Z]))
     = Raise ValueError.
Proof.
  intros x empty ids. do 4 (split; [reflexivity|]).
  split; [|split; [|split]].
  - exact (forward_init 500 11 5 3 512 512 80 4 x (tensor [10%Z]) (tensor [4%Z])
             (tensor [2%Z]) eq_refl eq_refl eq_refl eq_refl
             eq_refl eq_refl eq_refl eq_refl).
  - exact (forward_init 500 11 5 3 256 512 80 4 x (tensor [10%Z]) (tensor [4%Z])
             (tensor [2%Z]) eq_refl eq_refl eq_refl eq_refl
             eq_refl eq_refl eq_refl eq_refl).
  - exact (forward_init 500 11 5 3 512 512 80 0 empty (tensor [10%Z])
             (tensor [4%Z]) (tensor [2%Z]) eq_refl eq_refl eq_refl eq_refl
             eq_refl eq_refl eq_refl eq_refl).
  - exact (forward_init 500 11 5 3 512 0 80 4 x (tensor [10%Z]) (tensor [4%Z])
             (tensor [2%Z]) eq_refl eq_refl eq_refl eq_refl
             eq_refl eq_refl eq_refl eq_refl).
Defined.

(** Whatever its layers, a network whose forward pass returns gives back a
    spectrogram with the batch size and the length of the text and as many
    bins as its last layer puts out. *)
Theorem forward_output_shape m text_ids language_id accent_id style_id b t y :
  lshape text_ids = [b; t] ->
  lshape language_id = [1] ->
  MultilingualTTS.forward m text_ids language_id accent_id style_id = Ok y ->
  y = [b; t; Linear.out_features
               (MultilingualTTSDecoder.linear (MultilingualTTS.decoder m))].
Proof.
  intros Hx Hl. unfold MultilingualTTS.forward. intros H.
  apply result_bind_Ok in H as (enc & Henc & H).
  apply result_bind_Ok in H as (l1 & Hl1 & H).
  apply result_bind_Ok in H as (l2 & Hl2 & H).
  apply result_bind_Ok in H as (enc' & Hadd & H).
  apply result_bind_Ok in H as (tr & Htr & H).
  apply (encoder_forward_shape _ _ b t) in Henc as (f0 & ->); [|assumption].
  apply Embedding_forward_shape in Hl1. rewrite Hl in Hl1. subst l1.
  injection Hl2 as <-.
  apply add_3d_111 in Hadd as (f1 & ->).
  apply transfer_forward_shape in Htr as (f2 & ->).
  unfold MultilingualTTSDecoder.forward in H.
  apply result_bind_Ok in H as (x & Hx' & H).
  apply LSTM_forward_3d in Hx'. subst x.
  now apply Linear_forward_3d in H.
Qed.

Lemma forward_output_shape_witness :
  let x := {| lshape := [1; 4]; ldata := [3; 1; 4; 1]%Z |} in
  let m := agreeing_model in
  lshape x = [1; 4] /\ lshape (tensor [10%Z]) = [1]
  /\ MultilingualTTS.forward m x (tensor [10%Z]) (tensor [4%Z]) (tensor [2%Z])
     = Ok [1; 4; 80]
  /\ [1; 4; 80]
     = [1; 4; Linear.out_features
                (MultilingualTTSDecoder.linear (MultilingualTTS.decoder m))].
Proof.
  intros x m. split; [reflexivity|]. split; [reflexivity|].
  split; [reflexivity|].
  exact (forward_output_shape m x (tensor [10%Z]) (tensor [4%Z]) (tensor [2%Z])
           1 4 [1; 4; 80] eq_refl eq_refl eq_refl).
Defined.

(** The range checks of the handlers are exactly the index ranges of the
    embeddings of the model the server loads: an accent_id or style_id
    passes its check if and only if its embedding can be looked up, and the
    position of a supported language in the table is an index of the
    language embedding. *)
Theorem checks_match_embeddings :
  (forall a : Z,
     (a <? 0)%Z || (a >=? 5)%Z = false
     <-> Embedding.forward
           (AccentStyleTransferModule.accent_embedding
              (MultilingualTTS.transfer_module startup_model)) (tensor [a])
         = Ok [1; 512])
  /\ (forall s : Z,
        (s <? 0)%Z || (s >=? 3)%Z = false
        <-> Embedding.forward
              (AccentStyleTransferModule.style_embedding
                 (MultilingualTTS.transfer_module startup_model)) (tensor [s])
            = Ok [1; 512])
  /\ (forall x i,
        index x (LANGUAGES.*1) = Ok i ->
        Embedding.forward (MultilingualTTS.language_embedding startup_model)
          (tensor [i]) = Ok [1; 256]).
Proof.
  assert (Hidx : forall x l i, index x l = Ok i ->
                               (0 <= i < Z.of_nat (length l))%Z).
  { intros x l. induction l as [|y l IH]; intros i; [discriminate|].
    simpl index. destruct (bool_decide (x = y)).
    - intros [= <-]. simpl length. lia.
    - destruct (index x l) as [j|e]; [|discriminate].
      intros [= <-]. specialize (IH j eq_refl). simpl length. lia. }
  assert (Hemb : forall n dim (a : Z),
            Embedding.forward (Embedding.Build_t n dim) (tensor [a])
            = if (0 <=? a)%Z && (a <? Z.of_N n)%Z then Ok [1; dim]
              else Raise IndexError).
  { intros n dim a. rewrite Embedding_forward_in_vocab.
    unfold in_vocab. cbn [ldata tensor forallb lshape length N.of_nat app].
    rewrite andb_true_r. reflexivity. }
  split; [|split].
  - intros a. change (Embedding.forward _ _)
      with (Embedding.forward (Embedding.Build_t 5 512) (tensor [a])).
    rewrite Hemb. change (Z.of_N 5) with 5%Z.
    destruct (Z.leb_spec 0 a), (Z.ltb_spec a 5), (Z.ltb_spec a 0);
      rewrite Z.geb_leb; destruct (Z.leb_spec 5 a); cbn; split; intros;
      try reflexivity; try discriminate; lia.
  - intros a. change (Embedding.forward _ _)
      with (Embedding.forward (Embedding.Build_t 3 512) (tensor [a])).
    rewrite Hemb. change (Z.of_N 3) with 3%Z.
    destruct (Z.leb_spec 0 a), (Z.ltb_spec a 3), (Z.ltb_spec a 0);
      rewrite Z.geb_leb; destruct (Z.leb_spec 3 a); cbn; split; intros;
      try reflexivity; try discriminate; lia.
  - intros x i Hi. apply Hidx in Hi. cbn in Hi.
    change (Embedding.forward _ _)
      with (Embedding.forward (Embedding.Build_t 11 256) (tensor [i])).
    rewrite Hemb. change (Z.of_N 11) with 11%Z.
    destruct (Z.leb_spec 0 i), (Z.ltb_spec i 11); cbn; try reflexivity; lia.
Qed.

(** GET /info and GET /languages list the codes the handlers accept, in the
    order of the table and under the same names; the count is their number,
    11; and /info gives the script Devanagari to hi, mr, bh, cc, mg and mt
    and Other to the rest. *)
Theorem info_routes_agree :
  map LanguageInfo.code (ModelInfo.languages model_info) = LANGUAGES.*1
  /\ map (fun l => (LanguageInfo.code l, LanguageInfo.name l))
         (ModelInfo.languages model_info)
     = Languages.languages get_languages
  /\ Languages.count get_languages
     = Z.of_nat (length (ModelInfo.languages model_info))
  /\ Languages.count get_languages = 11%Z
  /\ map LanguageInfo.code
         (List.filter (fun l => bool_decide (LanguageInfo.script l = str "Devanagari"))
                      (ModelInfo.languages model_info))
     = [str "hi"; str "mr"; str "bh"; str "cc"; str "mg"; str "mt"]
  /\ Forall (fun l => LanguageInfo.script l = str "Devanagari"
                      \/ LanguageInfo.script l = str "Other")
            (ModelInfo.languages model_info).
Proof.
  repeat split; try reflexivity.
  repeat constructor; (left; reflexivity) || (right; reflexivity).
Qed.

(** ** More on the handlers *)

Section HandlerMore.
Variable db : UnicodeDB.
Variable str_exn : exn -> pystr.
Variables (sample Generator RandomState : Type).
Variable torch_next : Generator -> N * Generator.
Variable randn_next : RandomState -> sample * RandomState.
Variable pcm_16 : sample -> Z.
Variable os_stat : State Generator RandomState -> Path -> result (option kind).

Local Abbreviation state := (State Generator RandomState).
Local Abbreviation run := (post db str_exn torch_next randn_next pcm_16).
Local Abbreviation run_try := (post_try db torch_next randn_next pcm_16).

Ltac step_suite :=
  repeat first
    [ rewrite bind_run
    | progress unfold torch_randint, lift, call_model, gets, mkdir_outputs,
        modify, datetime_now, np_random_randn, sf_write, raise, logger_info,
        mret, M_ret
    | progress change (N.to_nat (fold_right N.mul 1 [1; 150])) with 150%nat
    | progress cbn [model model_loaded outputs disk_fault now torch_gen
                    np_gen log set_torch_gen set_outputs set_np_gen set_log
                    fst snd]
    | progress cbv beta iota zeta
    | match goal with
      | H : draw _ _ _ = _ |- _ => rewrite H
      | H : index _ _ = _ |- _ => rewrite H
      | H : model _ = _ |- _ => rewrite H
      | H : outputs _ = _ |- _ => rewrite H
      | H : disk_fault _ = _ |- _ => rewrite H
      | H : MultilingualTTS.forward _ _ _ _ _ = _ |- _ => rewrite H
      end ].

(** The suite on a valid request, its three checks passed. *)
Lemma post_try_valid_unfold ep request (st : state) :
  valid request ->
  run_try ep request st =
  (text_ids ← torch_randint torch_next 0 500 [1; 150];
   i ← lift (index (TTSRequest.language request) (LANGUAGES.*1));
   mel_spec ← call_model text_ids (tensor [i])
               (tensor [TTSRequest.accent_id request])
               (tensor [TTSRequest.style_id request]);
   mkdir_outputs;;
   t ← datetime_now;
   mel_np ← lift (getitem0 mel_spec);
   rows ← lift (shape0 mel_np);
   audio ← np_random_randn randn_next (rows * 256);
   sf_write pcm_16 (artifact ep (strftime t)) audio 22050;;
   match ep with
   | Synthesize => mret (answer ep request (strftime t) audio)
   | Get_Inference =>
       logger_info
         (str "Inference: " ++ take 50 (TTSRequest.text request)
          ++ str "... (lang=" ++ TTSRequest.language request
          ++ str ", accent=" ++ str_int (TTSRequest.accent_id request)
          ++ str ", style=" ++ str_int (TTSRequest.style_id request)
          ++ str ")");;
       mret (answer ep request (strftime t) audio)
   end) st.
Proof.
  intros (Hl & Ha & Hs).
  assert (Ea : ((TTSRequest.accent_id request <? 0)
                || (TTSRequest.accent_id request >=? 5))%Z = false).
  { apply orb_false_iff. split; [apply Z.ltb_ge | rewrite Z.geb_leb; apply Z.leb_gt]; lia. }
  assert (Es : ((TTSRequest.style_id request <? 0)
                || (TTSRequest.style_id request >=? 3))%Z = false).
  { apply orb_false_iff. split; [apply Z.ltb_ge | rewrite Z.geb_leb; apply Z.leb_gt]; lia. }
  destruct ep; unfold post_try, synthesize_try, get_inference_try;
    rewrite bool_decide_eq_true_2 by assumption; cbn [negb]; rewrite Ea, Es;
    reflexivity.
Qed.

(** What a suite leaves behind.  When it raises, no file of the directory
    has changed, and on a medium without fault only the torch generator may
    have moved.  When it returns, the request was valid, the samples are
    the next 38400 draws of the numpy generator, and they sit as PCM_16 in
    the directory under the name of the route and the second. *)
Lemma post_try_state ep request (st : state) :
  match run_try ep request st with
  | (Raise e, st') =>
      (disk_fault st = None ->
       outputs st' = outputs st /\ np_gen st' = np_gen st)
      /\ log st' = log st
      /\ (forall name, outputs st' ≫= (.!! name) = outputs st ≫= (.!! name))
      /\ model st' = model st /\ model_loaded st' = model_loaded st
      /\ now st' = now st /\ disk_fault st' = disk_fault st
  | (Ok resp, st') =>
      let drawn := draw randn_next (N.to_nat (150 * 256)) (np_gen st) in
      valid request
      /\ resp = answer ep request (strftime (now st)) (fst drawn)
      /\ outputs st'
         = Some (<[artifact ep (strftime (now st))
                   := Build_wav (map pcm_16 (fst drawn)) 22050]>
                   (default ∅ (outputs st)))
      /\ np_gen st' = snd drawn
      /\ torch_gen st' = snd (draw torch_next 150 (torch_gen st))
      /\ log st'
         = match ep with
           | Synthesize => log st
           | Get_Inference =>
               log st ++
               [(INFO,
                 str "Inference: " ++ take 50 (TTSRequest.text request)
                 ++ str "... (lang=" ++ TTSRequest.language request
                 ++ str ", accent=" ++ str_int (TTSRequest.accent_id request)
                 ++ str ", style=" ++ str_int (TTSRequest.style_id request)
                 ++ str ")")]
           end
      /\ model st' = model st /\ model_loaded st' = model_loaded st
      /\ now st' = now st /\ disk_fault st' = disk_fault st
  end.
Proof.
  destruct (decide (TTSRequest.language request ∈ LANGUAGES.*1)) as [Hl|Hl];
    [|rewrite post_try_bad_language by assumption; repeat split].
  destruct (decide (0 <= TTSRequest.accent_id request < 5)%Z) as [Ha|Ha];
    [|rewrite post_try_bad_accent by (try assumption; lia); repeat split].
  destruct (decide (0 <= TTSRequest.style_id request < 3)%Z) as [Hs|Hs];
    [|rewrite post_try_bad_style by (try assumption; lia); repeat split].
  assert (Hv : valid request) by exact (conj Hl (conj Ha Hs)).
  rewrite (post_try_valid_unfold ep request st Hv).
  destruct (draw torch_next 150 (torch_gen st)) as [raw g] eqn:Hraw.
  destruct (index_elem_of _ _ Hl) as (i & Hi & _).
  destruct (model st) as [m|] eqn:Hm;
    [|step_suite; repeat split; assumption].
  destruct (MultilingualTTS.forward m
              {| lshape := [1; 150];
                 ldata := map (fun r => (0 + Z.of_N r mod (500 - 0))%Z) raw |}
              (tensor [i]) (tensor [TTSRequest.accent_id request])
              (tensor [TTSRequest.style_id request])) as [mel|e] eqn:Hf;
    [|step_suite; repeat split; assumption].
  pose proof Hf as Hshape.
  apply (forward_shape _ _ _ _ _ 1 150) in Hshape; [|reflexivity..].
  destruct Hshape as (f & ->).
  destruct (draw randn_next (N.to_nat (150 * 256)) (np_gen st)) as [audio g'] eqn:Haud.
  destruct (outputs st) as [dir|] eqn:Hout;
    destruct (disk_fault st) as [[|]|] eqn:Hflt;
    step_suite;
    change (getitem0 [1; 150; f]) with (Ok (A:=shape) [150; f]); step_suite;
    change (shape0 [150; f]) with (Ok (A:=N) 150); step_suite;
    destruct ep; step_suite; cbn [fst snd default from_option id];
    repeat split; try assumption; try discriminate; try reflexivity; lia.
Qed.

Lemma post_Ok_try ep request (st st' : state) resp :
  run ep request st = (Ok resp, st') ->
  model_loaded st = true /\ run_try ep request st = (Ok resp, st').
Proof.
  rewrite post_unfold. destruct (model_loaded st); [|discriminate].
  destruct (run_try ep request st) as [[a|e] s1]; [|discriminate].
  intros [= <- <-]. now split.
Qed.

Lemma post_status_cases ep request (st : state) :
  if model_loaded st
  then status_code (fst (run ep request st)) = 200%Z
       \/ status_code (fst (run ep request st)) = 500%Z
  else status_code (fst (run ep request st)) = 503%Z.
Proof.
  rewrite post_unfold. destruct (model_loaded st); [|reflexivity].
  destruct (run_try ep request st) as [[a|e] s1]; [left|right]; reflexivity.
Qed.

(** The two synthesis routes answer 200, 500 or 503 and nothing else, never
    400; and 503 exactly when the model is not loaded. *)
Theorem post_status ep request (st : state) :
  status_code (fst (run ep request st)) ∈ [200; 500; 503]%Z
  /\ (status_code (fst (run ep request st)) = 503%Z <-> model_loaded st = false).
Proof.
  pose proof (post_status_cases ep request st) as H.
  destruct (model_loaded st).
  - destruct H as [-> | ->];
      (split; [repeat constructor | split; discriminate]).
  - rewrite H. split; [repeat constructor | now split].
Qed.

(** The error-handling test of the test script, which passes on a 400,
    fails against the server in whatever state the server is. *)
Theorem test_invalid_language_fails (st : state) :
  fst (test_invalid_language db str_exn torch_next randn_next pcm_16 st) = false.
Proof.
  unfold test_invalid_language.
  match goal with
  | |- context [get_inference db str_exn torch_next randn_next pcm_16 ?r st] =>
      pose proof (post_status_cases Get_Inference r st) as H;
      change (post db str_exn torch_next randn_next pcm_16 Get_Inference r st)
        with (get_inference db str_exn torch_next randn_next pcm_16 r st) in H;
      destruct (get_inference db str_exn torch_next randn_next pcm_16 r st)
        as [response st']
  end.
  cbn [fst] in H.
  destruct (model_loaded st); [destruct H as [H|H]|]; rewrite H; reflexivity.
Qed.

(** On a medium without fault, a synthesis request that fails leaves the
    output directory and the numpy generator as they were: what can still
    fail, fails before the directory is made and the samples are drawn. *)
Theorem failed_post_keeps_disk ep request (st : state) e :
  disk_fault st = None ->
  fst (post db str_exn torch_next randn_next pcm_16 ep request st) = Raise e ->
  outputs (snd (post db str_exn torch_next randn_next pcm_16 ep request st))
  = outputs st
  /\ np_gen (snd (post db str_exn torch_next randn_next pcm_16 ep request st))
     = np_gen st.
Proof.
  intros Hsound. rewrite post_unfold. destruct (model_loaded st); [|now split].
  pose proof (post_try_state ep request st) as H.
  destruct (run_try ep request st) as [[a|e0] s1]; [discriminate|].
  intros _. destruct H as (Hkeep & _). exact (Hkeep Hsound).
Qed.

(** What a synthesis request adds to the log: nothing when the model is not
    loaded; when it fails past the guard, one ERROR line, the label of the
    route followed by the detail of the 500; when it completes, nothing on
    /synthesize and one INFO line on /Get_Inference. *)
Theorem post_log ep request (st : state) :
  log (snd (run ep request st)) =
  match fst (run ep request st) with
  | Raise (HTTPException 500 detail) =>
      log st ++ [(ERROR, error_label ep ++ detail)]
  | Raise _ => log st
  | Ok _ =>
      match ep with
      | Synthesize => log st
      | Get_Inference =>
          log st ++
          [(INFO,
            str "Inference: " ++ take 50 (TTSRequest.text request)
            ++ str "... (lang=" ++ TTSRequest.language request
            ++ str ", accent=" ++ str_int (TTSRequest.accent_id request)
            ++ str ", style=" ++ str_int (TTSRequest.style_id request)
            ++ str ")")]
      end
  end.
Proof.
  rewrite post_unfold. destruct (model_loaded st); [|reflexivity].
  pose proof (post_try_state ep request st) as H.
  destruct (run_try ep request st) as [[a|e0] s1]; cbn [fst snd].
  - now destruct H as (_ & _ & _ & _ & _ & Hlog & _).
  - destruct H as (_ & Hlog & _). cbn [log set_log]. now rewrite Hlog.
Qed.

(** A synthesis request that completes draws its 38400 samples from the
    numpy generator, writes them, as the 16-bit words of PCM_16 and not as
    drawn, at 22050 Hz under the name of its route and second, and touches
    no other file of the directory. *)
Theorem post_Ok_effects ep request (st st' : state) resp :
  run ep request st = (Ok resp, st') ->
  let drawn := draw randn_next (N.to_nat (150 * 256)) (np_gen st) in
  let name := artifact ep (strftime (now st)) in
  outputs st' ≫= (.!! name) = Some (Build_wav (map pcm_16 (fst drawn)) 22050)
  /\ (forall other, other <> name ->
        outputs st' ≫= (.!! other) = outputs st ≫= (.!! other))
  /\ np_gen st' = snd drawn
  /\ torch_gen st' = snd (draw torch_next 150 (torch_gen st)).
Proof.
  intros [_ Hrun]%post_Ok_try drawn name.
  pose proof (post_try_state ep request st) as H. rewrite Hrun in H.
  destruct H as (_ & _ & Ho & Hn & Ht & _).
  rewrite Ho. cbn [mbind option_bind]. repeat split; try assumption.
  - apply lookup_insert_eq.
  - intros other Hne.
    rewrite lookup_insert_ne by (intros E; apply Hne; symmetry; exact E).
    now destruct (outputs st).
Qed.

(** The name of an artifact is one plain piece of a path. *)
Lemma artifact_entry ep d :
  Forall (fun c => c <> slash) (artifact ep (strftime d))
  /\ artifact ep (strftime d) <> []
  /\ artifact ep (strftime d) <> str "."
  /\ artifact ep (strftime d) <> str "..".
Proof.
  split.
  - pose proof (strftime_no_slash d) as Hd.
    destruct ep; unfold artifact;
      (apply Forall_app_2; [|apply Forall_app_2; [exact Hd|]]);
      cbn [str]; repeat (constructor; [now vm_compute|]); constructor.
  - destruct ep; repeat split; discriminate.
Qed.

(** Retrieval by a name that is one piece of a path, and neither [.] nor
    [..]: GET /audio/{filename} serves the file of that name, as audio/wav,
    when the output directory holds it, and answers 404 when the directory
    does not hold it and the name is plain; the state is left alone. *)
Theorem get_audio_serves_entry (filename : pystr) (st : state) :
  Forall (fun c => c <> slash) filename ->
  filename <> [] -> filename <> str "." -> filename <> str ".." ->
  match outputs st ≫= (.!! filename) with
  | Some content =>
      exists r, get_audio os_stat filename st = (Ok r, st)
                /\ media_type r = str "audio/wav"
                /\ body r st = Some content
  | None =>
      plain_name filename = true ->
      get_audio os_stat filename st
      = (Raise (HTTPException 404 (str "Audio file not found")), st)
  end.
Proof. apply get_audio_entry. Qed.

(** Insert then look up: the audio_url of a completed request names a file
    that GET /audio serves, as audio/wav, and that holds the 38400 samples
    at 22050 Hz. *)
Theorem written_artifact_is_served ep request (st st' : state) resp :
  run ep request st = (Ok resp, st') ->
  exists name r w,
    TTSResponse.audio_url resp = Some (str "/audio/" ++ name)
    /\ get_audio os_stat name st' = (Ok r, st')
    /\ media_type r = str "audio/wav"
    /\ body r st' = Some w
    /\ samplerate w = 22050%Z
    /\ Z.of_nat (length (samples w)) = 38400%Z.
Proof.
  intros [_ Hrun]%post_Ok_try.
  pose proof (post_try_state ep request st) as H. rewrite Hrun in H.
  destruct H as (_ & -> & Ho & _).
  set (drawn := draw randn_next (N.to_nat (150 * 256)) (np_gen st)) in *.
  assert (Hfile : outputs st' ≫= (.!! artifact ep (strftime (now st)))
                  = Some (Build_wav (map pcm_16 (fst drawn)) 22050)).
  { rewrite Ho. cbn [mbind option_bind]. apply lookup_insert_eq. }
  destruct (artifact_entry ep (now st)) as (Hs & Hn & Hd & Hdd).
  pose proof (get_audio_entry _ _ os_stat _ st' Hs Hn Hd Hdd) as Hget.
  rewrite Hfile in Hget. destruct Hget as (r & Hr & Hmedia & Hbody).
  exists (artifact ep (strftime (now st))), r,
    (Build_wav (map pcm_16 (fst drawn)) 22050).
  split; [reflexivity|]. split; [exact Hr|]. split; [exact Hmedia|].
  split; [exact Hbody|]. split; [reflexivity|].
  cbn [samples]. subst drawn.
  rewrite length_map, draw_length, N_nat_Z. reflexivity.
Qed.

(** Two requests that complete on the same route within the same second get
    the same audio_url; the second overwrites the artifact of the first with
    its own frames, as PCM_16, and adds no file to the directory. *)
Theorem same_second_overwrites ep request1 request2 (st s1 s2 : state) a1 a2 :
  run ep request1 st = (Ok a1, s1) ->
  run ep request2 s1 = (Ok a2, s2) ->
  let name := artifact ep (strftime (now st)) in
  TTSResponse.audio_url a1 = Some (str "/audio/" ++ name)
  /\ TTSResponse.audio_url a2 = Some (str "/audio/" ++ name)
  /\ outputs s2 ≫= (.!! name)
     = Some (Build_wav
               (map pcm_16
                  (fst (draw randn_next (N.to_nat (150 * 256)) (np_gen s1))))
               22050)
  /\ (forall other,
        is_Some (outputs s2 ≫= (.!! other)) <-> is_Some (outputs s1 ≫= (.!! other))).
Proof.
  intros [_ H1]%post_Ok_try [_ H2]%post_Ok_try name.
  pose proof (post_try_state ep request1 st) as P1. rewrite H1 in P1.
  pose proof (post_try_state ep request2 s1) as P2. rewrite H2 in P2.
  destruct P1 as (_ & -> & O1 & _ & _ & _ & _ & _ & N1 & _).
  destruct P2 as (_ & -> & O2 & _).
  rewrite N1 in O2 |- *. rewrite O2, O1.
  cbn [answer TTSResponse.audio_url from_option id mbind option_bind].
  split; [reflexivity|]. split; [reflexivity|]. split.
  - apply lookup_insert_eq.
  - intros other. fold name. destruct (decide (name = other)) as [<-|Hne].
    + rewrite !lookup_insert_eq. split; intros _; now eexists.
    + rewrite (lookup_insert_ne _ name other) by assumption. reflexivity.
Qed.

(** The names of the two routes never meet: neither route overwrites an
    artifact of the other, whatever the seconds. *)
Theorem routes_never_collide timestamp timestamp' :
  artifact Synthesize timestamp <> artifact Get_Inference timestamp'.
Proof. discriminate. Qed.

(** What is synthesized does not depend on what was asked: two requests
    that complete from the same state, on the same route, get the same
    audio_url and duration and leave the same directory, samples and all,
    whatever their text, language, accent and style. *)
Theorem audio_ignores_request ep request request' (st s s' : state) a a' :
  post db str_exn torch_next randn_next pcm_16 ep request st = (Ok a, s) ->
  post db str_exn torch_next randn_next pcm_16 ep request' st = (Ok a', s') ->
  TTSResponse.audio_url a = TTSResponse.audio_url a'
  /\ TTSResponse.duration a = TTSResponse.duration a'
  /\ outputs s = outputs s'.
Proof.
  intros [_ H1]%post_Ok_try [_ H2]%post_Ok_try.
  pose proof (post_try_state ep request st) as P1. rewrite H1 in P1.
  pose proof (post_try_state ep request' st) as P2. rewrite H2 in P2.
  destruct P1 as (_ & -> & O1 & _), P2 as (_ & -> & O2 & _).
  rewrite O1, O2. repeat split.
Qed.

(** The handlers never touch the model they were given nor the flag: both
    are as [startup_event] left them after any request. *)
Lemma post_keeps_model ep request (st : state) :
  model (snd (run ep request st)) = model st
  /\ model_loaded (snd (run ep request st)) = model_loaded st.
Proof.
  rewrite post_unfold. destruct (model_loaded st) eqn:E; [|now split].
  pose proof (post_try_state ep request st) as H.
  destruct (run_try ep request st) as [[a|e0] s1]; cbn [fst snd].
  - destruct H as (_ & _ & _ & _ & _ & _ & Hm & Hl & _). now rewrite Hm, Hl.
  - destruct H as (_ & _ & _ & Hm & Hl & _). cbn [model model_loaded set_log].
    now rewrite Hm, Hl.
Qed.

Lemma serve_loaded arrivals (st : state) :
  model_loaded st = true ->
  model st = Some startup_model ->
  Forall (fun r => exists e, r = Raise (HTTPException 500 (str_exn e)))
         (fst (serve db str_exn torch_next randn_next pcm_16 arrivals st)).
Proof.
  revert st. induction arrivals as [|[[t ep] request] rest IH]; intros st Hl Hm.
  - constructor.
  - cbn [serve].
    pose proof (loaded_server_answers_500 db str_exn _ _ _ torch_next randn_next
                  pcm_16 ep request (set_now t st) Hl Hm) as [e He].
    pose proof (post_keeps_model ep request (set_now t st)) as [Km Kl].
    destruct (run ep request (set_now t st)) as [r1 s1]. cbn [fst snd] in *.
    specialize (IH s1 ltac:(now rewrite Kl) ltac:(now rewrite Km)).
    destruct (serve db str_exn torch_next randn_next pcm_16 rest s1) as [rs s2].
    cbn [fst] in *. constructor; [now exists e | assumption].
Qed.

(** The server as it starts never synthesizes anything: whatever requests
    arrive after [startup_event], on either route and at whatever times,
    every one of them is answered 500. *)
Theorem started_server_never_synthesizes arrivals (boot : state) :
  Forall (fun r => exists e, r = Raise (HTTPException 500 (str_exn e)))
         (fst (serve db str_exn torch_next randn_next pcm_16 arrivals
                 (snd (startup_event str_exn boot)))).
Proof. apply serve_loaded; reflexivity. Qed.

End HandlerMore.

(** *** The timestamp *)

Lemma digits2 n : n < 100 -> n = 10 * ((n / 10) mod 10) + n mod 10.
Proof.
  intros H. pose proof (N.div_mod n 10 ltac:(lia)) as E0.
  assert (n / 10 < 10) by (apply N.Div0.div_lt_upper_bound; lia).
  rewrite (N.mod_small (n / 10) 10) by assumption. exact E0.
Qed.

Lemma digits4 n :
  n < 10000 ->
  n = 1000 * ((n / 1000) mod 10) + 100 * ((n / 100) mod 10)
      + 10 * ((n / 10) mod 10) + n mod 10.
Proof.
  intros H.
  pose proof (N.div_mod n 10 ltac:(lia)) as E0.
  pose proof (N.div_mod (n / 10) 10 ltac:(lia)) as E1.
  pose proof (N.div_mod (n / 100) 10 ltac:(lia)) as E2.
  rewrite N.Div0.div_div in E1. change (10 * 10) with 100 in E1.
  rewrite N.Div0.div_div in E2. change (100 * 10) with 1000 in E2.
  assert (n / 1000 < 10) by (apply N.Div0.div_lt_upper_bound; lia).
  rewrite (N.mod_small (n / 1000) 10) by assumption. lia.
Qed.

(** Distinct seconds give distinct timestamps, hence distinct artifact
    names on a route: [strftime] is one-to-one on dates of four-digit years
    (and two-digit months, days, hours, minutes and seconds). *)
Theorem strftime_injective d d' :
  in_range d -> in_range d' -> strftime d = strftime d' -> d = d'.
Proof.
  intros (Hy & Hm & Hd & Hh & Hmi & Hs) (Hy' & Hm' & Hd' & Hh' & Hmi' & Hs') E.
  unfold strftime, zfill4, zfill2, digit in E. cbn [app str] in E.
  injection E as E1 E2 E3 E4 E5 E6 E7 E8 E9 E10 E11 E12 E13 E14.
  pose proof (digits4 (year d) Hy). pose proof (digits4 (year d') Hy').
  pose proof (digits2 (month d) Hm). pose proof (digits2 (month d') Hm').
  pose proof (digits2 (day d) Hd). pose proof (digits2 (day d') Hd').
  pose proof (digits2 (hour d) Hh). pose proof (digits2 (hour d') Hh').
  pose proof (digits2 (minute d) Hmi). pose proof (digits2 (minute d') Hmi').
  pose proof (digits2 (second d) Hs). pose proof (digits2 (second d') Hs').
  destruct d, d'. cbn [year month day hour minute second] in *.
  f_equal; lia.
Qed.

Lemma strftime_injective_witness :
  let d := {| year := 2024; month := 3; day := 9;
              hour := 7; minute := 5; second := 1 |} in
  in_range d /\ in_range d /\ strftime d = strftime d /\ d = d.
Proof.
  intros d.
  assert (H : in_range d) by (unfold in_range, d; cbn; lia).
  split; [exact H|]. split; [exact H|]. split; [reflexivity|].
  exact (strftime_injective d d H H eq_refl).
Defined.

(** *** The theorems on completed requests at work *)

Local Abbreviation served :=
  (post ascii_db demo_str_exn demo_torch_next demo_randn_next demo_pcm_16).

Lemma completes_inv {Generator RandomState : Type}
    (r : result TTSResponse.t * State Generator RandomState) :
  match fst r with Ok _ => True | Raise _ => False end ->
  exists resp, r = (Ok resp, snd r).
Proof. destruct r as [[resp|e] s]; [now exists resp | contradiction]. Qed.

Lemma demo_run :
  exists resp,
    served Synthesize namaste demo_agreeing = (Ok resp, demo_served).
Proof.
  unfold demo_served.
  apply (completes_inv (served Synthesize namaste demo_agreeing)).
  vm_compute. exact I.
Qed.

Lemma demo_run_other :
  exists resp,
    served Synthesize hello_ta demo_agreeing
    = (Ok resp, snd (served Synthesize hello_ta demo_agreeing)).
Proof.
  apply (completes_inv (served Synthesize hello_ta demo_agreeing)).
  vm_compute. exact I.
Qed.

Lemma demo_run_again :
  exists resp,
    served Synthesize hello_ta demo_served
    = (Ok resp, snd (served Synthesize hello_ta demo_served)).
Proof.
  apply (completes_inv (served Synthesize hello_ta demo_served)).
  vm_compute. exact I.
Qed.

Lemma completed_request_duration_witness :
  exists resp,
    served Synthesize namaste demo_agreeing = (Ok resp, demo_served)
    /\ TTSResponse.duration resp = Some (QArith_base.Qmake (150 * 256) 22050)
    /\ valid namaste /\ model_loaded demo_agreeing = true.
Proof.
  destruct demo_run as [resp Hrun]. exists resp.
  split; [exact Hrun|].
  exact (completed_request_duration ascii_db demo_str_exn Z N N demo_torch_next
           demo_randn_next demo_pcm_16 Synthesize namaste demo_agreeing
           demo_served resp Hrun).
Defined.

Lemma completed_request_echoes_witness :
  exists resp,
    served Synthesize namaste demo_agreeing = (Ok resp, demo_served)
    /\ TTSResponse.status resp = str "success"
    /\ TTSResponse.language resp = TTSRequest.language namaste
    /\ TTSResponse.accent_id resp = TTSRequest.accent_id namaste
    /\ TTSResponse.style_id resp = TTSRequest.style_id namaste
    /\ exists audio,
         Z.of_nat (length audio) = 38400%Z
         /\ TTSResponse.audio_url resp
            = Some (str "/audio/"
                    ++ artifact Synthesize (strftime (now demo_agreeing)))
         /\ outputs demo_served
              ≫= (.!! artifact Synthesize (strftime (now demo_agreeing)))
            = Some (Build_wav (map demo_pcm_16 audio) 22050).
Proof.
  destruct demo_run as [resp Hrun]. exists resp.
  split; [exact Hrun|].
  exact (completed_request_echoes ascii_db demo_str_exn Z N N demo_torch_next
           demo_randn_next demo_pcm_16 Synthesize namaste demo_agreeing
           demo_served resp Hrun).
Defined.

(** *** The extra theorems at work *)

Lemma failed_post_keeps_disk_witness :
  disk_fault demo_started = None
  /\ fst (served Get_Inference namaste demo_started)
     = Raise (HTTPException 500 (str "RuntimeError"))
  /\ outputs (snd (served Get_Inference namaste demo_started))
     = outputs demo_started
  /\ np_gen (snd (served Get_Inference namaste demo_started))
     = np_gen demo_started.
Proof.
  assert (H : fst (served Get_Inference namaste demo_started)
              = Raise (HTTPException 500 (str "RuntimeError")))
    by (vm_compute; reflexivity).
  split; [reflexivity|]. split; [exact H|].
  exact (failed_post_keeps_disk ascii_db demo_str_exn Z N N demo_torch_next
           demo_randn_next demo_pcm_16 Get_Inference namaste demo_started _
           eq_refl H).
Defined.

(** A directory with one file, asked for that file and for another. *)
Lemma get_audio_serves_entry_witness :
  let held := Build_wav [0; 32767; -32768]%Z 22050 in
  let st := set_outputs (Some {[ str "a.wav" := held ]}) demo_started in
  (exists r, get_audio demo_os_stat (str "a.wav") st = (Ok r, st)
             /\ media_type r = str "audio/wav"
             /\ body r st = Some held)
  /\ get_audio demo_os_stat (str "b.wav") st
     = (Raise (HTTPException 404 (str "Audio file not found")), st).
Proof.
  intros held st.
  assert (Hname : forall name : pystr,
            name = str "a.wav" \/ name = str "b.wav" ->
            Forall (fun c => c <> slash) name
            /\ name <> [] /\ name <> str "." /\ name <> str "..").
  { intros name [-> | ->];
      (split; [repeat (constructor; [now vm_compute|]); constructor|]);
      repeat split; discriminate. }
  split.
  - destruct (Hname (str "a.wav") (or_introl eq_refl)) as (H1 & H2 & H3 & H4).
    exact (get_audio_serves_entry N N demo_os_stat (str "a.wav") st H1 H2 H3 H4).
  - destruct (Hname (str "b.wav") (or_intror eq_refl)) as (H1 & H2 & H3 & H4).
    exact (get_audio_serves_entry N N demo_os_stat (str "b.wav") st H1 H2 H3 H4
             eq_refl).
Defined.

Lemma post_Ok_effects_witness :
  exists resp,
    served Synthesize namaste demo_agreeing = (Ok resp, demo_served)
    /\ let drawn :=
         draw demo_randn_next (N.to_nat (150 * 256)) (np_gen demo_agreeing) in
       let name := artifact Synthesize (strftime (now demo_agreeing)) in
       outputs demo_served ≫= (.!! name)
       = Some (Build_wav (map demo_pcm_16 (fst drawn)) 22050)
       /\ (forall other, other <> name ->
             outputs demo_served ≫= (.!! other)
             = outputs demo_agreeing ≫= (.!! other))
       /\ np_gen demo_served = snd drawn
       /\ torch_gen demo_served
          = snd (draw demo_torch_next 150 (torch_gen demo_agreeing)).
Proof.
  destruct demo_run as [resp Hrun]. exists resp.
  split; [exact Hrun|].
  exact (post_Ok_effects ascii_db demo_str_exn Z N N demo_torch_next
           demo_randn_next demo_pcm_16 Synthesize namaste demo_agreeing demo_served resp
           Hrun).
Defined.

Lemma written_artifact_is_served_witness :
  exists resp,
    served Synthesize namaste demo_agreeing = (Ok resp, demo_served)
    /\ exists name r w,
         TTSResponse.audio_url resp = Some (str "/audio/" ++ name)
         /\ get_audio demo_os_stat name demo_served = (Ok r, demo_served)
         /\ media_type r = str "audio/wav"
         /\ body r demo_served = Some w
         /\ samplerate w = 22050%Z
         /\ Z.of_nat (length (samples w)) = 38400%Z.
Proof.
  destruct demo_run as [resp Hrun]. exists resp.
  split; [exact Hrun|].
  exact (written_artifact_is_served ascii_db demo_str_exn Z N N demo_torch_next
           demo_randn_next demo_pcm_16 demo_os_stat Synthesize namaste
           demo_agreeing demo_served resp Hrun).
Defined.

Lemma same_second_overwrites_witness :
  exists a1 a2,
    served Synthesize namaste demo_agreeing = (Ok a1, demo_served)
    /\ served Synthesize hello_ta demo_served
       = (Ok a2, snd (served Synthesize hello_ta demo_served))
    /\ let name := artifact Synthesize (strftime (now demo_agreeing)) in
       TTSResponse.audio_url a1 = Some (str "/audio/" ++ name)
       /\ TTSResponse.audio_url a2 = Some (str "/audio/" ++ name)
       /\ outputs (snd (served Synthesize hello_ta demo_served))
            ≫= (.!! name)
          = Some (Build_wav
                    (map demo_pcm_16
                       (fst (draw demo_randn_next (N.to_nat (150 * 256))
                               (np_gen demo_served)))) 22050)
       /\ (forall other,
             is_Some (outputs (snd (served Synthesize hello_ta demo_served))
                        ≫= (.!! other))
             <-> is_Some (outputs demo_served ≫= (.!! other))).
Proof.
  destruct demo_run as [a1 H1]. destruct demo_run_again as [a2 H2].
  exists a1, a2.
  split; [exact H1|]. split; [exact H2|].
  exact (same_second_overwrites ascii_db demo_str_exn Z N N demo_torch_next
           demo_randn_next demo_pcm_16 Synthesize namaste hello_ta demo_agreeing
           demo_served _ a1 a2 H1 H2).
Defined.

Lemma audio_ignores_request_witness :
  exists a a',
    served Synthesize namaste demo_agreeing = (Ok a, demo_served)
    /\ served Synthesize hello_ta demo_agreeing
       = (Ok a', snd (served Synthesize hello_ta demo_agreeing))
    /\ TTSResponse.audio_url a = TTSResponse.audio_url a'
    /\ TTSResponse.duration a = TTSResponse.duration a'
    /\ outputs demo_served
       = outputs (snd (served Synthesize hello_ta demo_agreeing)).
Proof.
  destruct demo_run as [a H1]. destruct demo_run_other as [a' H2].
  exists a, a'.
  split; [exact H1|]. split; [exact H2|].
  exact (audio_ignores_request ascii_db demo_str_exn Z N N demo_torch_next
           demo_randn_next demo_pcm_16 Synthesize namaste hello_ta demo_agreeing
           _ _ a a' H1 H2).
Defined.
